(** * RecurrenceRule: a shallow embedding of the Coda pack and its helpers

    The development follows the TypeScript sources:
    - [src/utils/string.helpers.ts]  ([capitalize], [escapeControlCodes],
      [unescapeControlCodes]),
    - [src/utils/object.helpers.ts]  ([deleteUndefinedProps]),
    - [src/rrule_converter.ts]       (the four token converters),
    - [src/pack.ts]                  (the formulas built on the rrule engine).

    JavaScript strings are sequences of UTF-16 code units; they are modelled
    as lists of [N].  Exceptions are modelled by an error type and a result
    monad; objects that the code mutates live in an explicit heap.  The
    wall clock, which the engine reads whenever it builds a rule, is an
    argument of every formula that builds one. *)

From Stdlib Require Import ZArith NArith QArith Qminmax Qround Lia.
From stdpp Require Import base option list gmap strings pretty fin_maps.

Set Warnings "-register-all".

Local Open Scope N_scope.

(* ===================================================================== *)
(** ** JavaScript strings *)
(* ===================================================================== *)

Module JS.

(** A string is its list of UTF-16 code units. *)
Abbreviation jsstring := (list N).

(** A source literal, written as a Rocq string of ASCII characters. *)
Definition js (s : string) : jsstring :=
  Ascii.N_of_ascii <$> String.list_ascii_of_string s.

Definition between (lo hi c : N) : bool := (lo <=? c) && (c <=? hi).

(** [String.prototype.toLowerCase].  The table lists ASCII, Latin-1 and the
    only two code units outside them whose lower case contains an ASCII
    letter (U+0130 and the Kelvin sign U+212A).  Every other code unit is
    kept: its lower case, whatever it is, is neither an ASCII character nor
    white space, which is all that the callers below can observe. *)
Definition lowerUnit (c : N) : jsstring :=
  if between 0x41 0x5A c then [c + 32]
  else if between 0xC0 0xDE c && negb (c =? 0xD7) then [c + 32]
  else if c =? 0x130 then [0x69; 0x307]
  else if c =? 0x212A then [0x6B]
  else [c].

Definition toLowerCase (s : jsstring) : jsstring := s ≫= lowerUnit.

(** [String.prototype.toUpperCase], tabled the same way: ASCII, Latin-1
    (sharp s becomes "SS"), and the two code units outside Latin-1 whose
    upper case is a single ASCII letter (dotless i U+0131, long s U+017F).
    Every other code unit is kept: its upper case holds a code unit outside
    ASCII or is one of the ligature expansions FF, FI, FL, FFI, FFL and ST,
    and the only caller looks the result up among the seven frequency
    names, which hold none of these. *)
Definition upperUnit (c : N) : jsstring :=
  if between 0x61 0x7A c then [c - 32]
  else if between 0xE0 0xFE c && negb (c =? 0xF7) then [c - 32]
  else if c =? 0xDF then [0x53; 0x53]
  else if c =? 0xB5 then [0x39C]
  else if c =? 0xFF then [0x178]
  else if c =? 0x131 then [0x49]
  else if c =? 0x17F then [0x53]
  else [c].

Definition toUpperCase (s : jsstring) : jsstring := s ≫= upperUnit.

(** ECMAScript WhiteSpace and LineTerminator code units: what [trim] strips
    and what [\s] matches. *)
Definition isWhiteSpace (c : N) : bool :=
  between 0x09 0x0D c || (c =? 0x20) || (c =? 0xA0) || (c =? 0x1680)
  || between 0x2000 0x200A c || (c =? 0x2028) || (c =? 0x2029)
  || (c =? 0x202F) || (c =? 0x205F) || (c =? 0x3000) || (c =? 0xFEFF).

(** LineTerminator code units: what [.] does not match. *)
Definition isLineTerminator (c : N) : bool :=
  (c =? 0x0A) || (c =? 0x0D) || (c =? 0x2028) || (c =? 0x2029).

Fixpoint dropWhile (p : N → bool) (s : jsstring) : jsstring :=
  match s with
  | [] => []
  | c :: r => if p c then dropWhile p r else s
  end.

Fixpoint takeWhile (p : N → bool) (s : jsstring) : jsstring :=
  match s with
  | [] => []
  | c :: r => if p c then c :: takeWhile p r else []
  end.

Definition trimStart (s : jsstring) : jsstring := dropWhile isWhiteSpace s.
Definition trimEnd (s : jsstring) : jsstring := rev (dropWhile isWhiteSpace (rev s)).

(** [String.prototype.trim] *)
Definition trim (s : jsstring) : jsstring := trimEnd (trimStart s).

(** Character classes of the regular expressions in the sources (none of
    them carries the [u] or [i] flag, so the classes are the ASCII ones). *)
Definition isDigit (c : N) : bool := between 0x30 0x39 c.
Definition isWord (c : N) : bool :=
  between 0x30 0x39 c || between 0x41 0x5A c || between 0x61 0x7A c || (c =? 0x5F).
Definition isSign (c : N) : bool := (c =? 0x2D) || (c =? 0x2B).

(** [s.match(/\w+/)]: [None] is JavaScript's [null]; a match is the array
    holding the matched text (the expression has no capture group). *)
Definition match_word (s : jsstring) : option (list jsstring) :=
  match dropWhile (fun c => negb (isWord c)) s with
  | [] => None
  | r => Some [takeWhile isWord r]
  end.

(** [s.match(/^[-+]?[0-9]+/)]: the optional sign is greedy, and giving it
    back never helps because a sign is not a digit. *)
Definition match_prefix (s : jsstring) : option (list jsstring) :=
  let '(sign, r) :=
    match s with
    | c :: r => if isSign c then ([c], r) else ([], s)
    | [] => ([], [])
    end in
  match takeWhile isDigit r with
  | [] => None
  | ds => Some [sign ++ ds]
  end.

(** [/^[-+]?[0-9]+/.test(s)] *)
Definition test_prefix (s : jsstring) : bool := bool_decide (is_Some (match_prefix s)).

Definition digitValue (c : N) : Z := Z.of_N (c - 0x30).

Definition decimalValue (ds : jsstring) : Z :=
  foldl (fun acc c => 10 * acc + digitValue c)%Z 0%Z ds.

(** [parseInt(s)] without a radix, on the decimal inputs the sources give it:
    leading white space, an optional sign, then decimal digits; [None] is
    [NaN].  The value is exact (JavaScript rounds beyond 2^53). *)
Definition parseInt (s : jsstring) : option Z :=
  let s := trimStart s in
  let '(neg, r) :=
    match s with
    | c :: r => if c =? 0x2D then (true, r) else if c =? 0x2B then (false, r) else (false, s)
    | [] => (false, [])
    end in
  match takeWhile isDigit r with
  | [] => None
  | ds => Some (if neg then - decimalValue ds else decimalValue ds)%Z
  end.

End JS.

Export JS.

(* ===================================================================== *)
(** ** Exceptions *)
(* ===================================================================== *)

(** The errors that the sources throw or let through.  [CouldNotConvertError]
    is the class of [src/rrule_converter.ts]: it forwards its constructor
    arguments to [Error], so its only content is the message.  [TypeError]
    and [SyntaxError] are raised by the JavaScript runtime, [EngineError] by
    the rrule engine, [UserVisibleError] by the formulas of [src/pack.ts]. *)
Inductive exn :=
| CouldNotConvertError (message : jsstring)
| TypeError
| SyntaxError
| EngineError (message : jsstring)
| UserVisibleError (message : jsstring).

Inductive result (A : Type) :=
| Return (a : A)
| Throw (e : exn).
Arguments Return {A} a.
Arguments Throw {A} e.

#[export] Instance result_ret : MRet result := @Return.
#[export] Instance result_bind : MBind result := fun A B f m =>
  match m with
  | Return a => f a
  | Throw e => Throw e
  end.
#[export] Instance result_fmap : FMap result := fun A B f m =>
  match m with
  | Return a => Return (f a)
  | Throw e => Throw e
  end.

(** [xs.map(f)] for an [f] that may throw: left to right, first throw wins. *)
Fixpoint mapR {A B} (f : A → result B) (xs : list A) : result (list B) :=
  match xs with
  | [] => Return []
  | x :: r => y ← f x; ys ← mapR f r; Return (y :: ys)
  end.

(* ===================================================================== *)
(** ** src/rrule_converter.ts: the token converters *)
(* ===================================================================== *)

Module Converter.

(** A JavaScript number as far as the converters see one: [parseInt] gives
    an integer or [NaN]. *)
Inductive number :=
| NaN
| Int (z : Z).

Definition parseIntNumber (s : jsstring) : number :=
  match parseInt s with
  | Some z => Int z
  | None => NaN
  end.

(** The engine's weekday constants [RRule.MO] .. [RRule.SU] are [Weekday]
    objects: a base day and an optional occurrence modifier [n]. *)
Inductive WeekdayStr := MO | TU | WE | TH | FR | SA | SU.

Record Weekday := mkWeekday { weekday : WeekdayStr; n : option number }.

Definition RRule_MO := mkWeekday MO None.
Definition RRule_TU := mkWeekday TU None.
Definition RRule_WE := mkWeekday WE None.
Definition RRule_TH := mkWeekday TH None.
Definition RRule_FR := mkWeekday FR None.
Definition RRule_SA := mkWeekday SA None.
Definition RRule_SU := mkWeekday SU None.

(** Modelled from the spec: [Weekday.nth] belongs to the rrule engine, which
    is not part of the sources.  The spec's Weekday is a base day plus an
    optional signed occurrence modifier, the modifier is non-zero, and
    construction fails on a value outside its range. *)
Definition nth (w : Weekday) (k : number) : result Weekday :=
  match k with
  | Int 0 => Throw (EngineError (js "weekday occurrence must be non-zero"))
  | _ => Return (mkWeekday (weekday w) (Some k))
  end.

(** The engine's [Frequency] enumeration, [RRule.YEARLY] .. [RRule.SECONDLY]. *)
Inductive Frequency := YEARLY | MONTHLY | WEEKLY | DAILY | HOURLY | MINUTELY | SECONDLY.

(** A [switch] on a string: the cases are tried in order, each with its
    list of [case] labels; every body of the sources returns or throws, so
    there is no fall-through between bodies. *)
Fixpoint switch {A} (x : jsstring) (cases : list (list string * A)) (default : A) : A :=
  match cases with
  | [] => default
  | (labels, body) :: rest =>
      if bool_decide (x ∈ js <$> labels) then body else switch x rest default
  end.

(** [throw new CouldNotConvertError;] no argument reaches [Error], so the
    message is the empty string. *)
Definition throwCouldNotConvert {A} : result A := Throw (CouldNotConvertError []).

Definition convertUserWeekdayStringToRRuleConstant (weekday : jsstring) : result Weekday :=
  switch (trim (toLowerCase weekday))
    [ (["1"; "monday"; "mo"], Return RRule_MO);
      (["2"; "tuesday"; "tu"], Return RRule_TU);
      (["3"; "wednesday"; "we"], Return RRule_WE);
      (["4"; "thursday"; "th"], Return RRule_TH);
      (["5"; "friday"; "fr"], Return RRule_FR);
      (["6"; "saturday"; "sa"], Return RRule_SA);
      (["7"; "sunday"; "su"], Return RRule_SU) ]
    throwCouldNotConvert.

Definition convertUserMonthStringToRRuleConstant (month : jsstring) : result Z :=
  switch (trim (toLowerCase month))
    [ (["1"; "january"; "jan"], Return 1%Z);
      (["2"; "february"; "feb"], Return 2%Z);
      (["3"; "march"; "ma"], Return 3%Z);
      (["4"; "april"; "apr"], Return 4%Z);
      (["5"; "may"], Return 5%Z);
      (["6"; "june"; "jun"], Return 6%Z);
      (["7"; "july"; "jul"], Return 7%Z);
      (["8"; "august"; "aug"], Return 8%Z);
      (["9"; "september"; "sep"], Return 9%Z);
      (["10"; "october"; "oct"], Return 10%Z);
      (["11"; "november"; "nov"], Return 11%Z);
      (["12"; "december"; "dec"], Return 12%Z) ]
    throwCouldNotConvert.

(** The object literal of [convertFrequencyStringToRRuleConstant]; its own
    properties are exactly these seven keys. *)
Definition frequencyStringToRRuleConstants : gmap jsstring Frequency :=
  list_to_map
    [ (js "YEARLY", YEARLY); (js "MONTHLY", MONTHLY); (js "WEEKLY", WEEKLY);
      (js "DAILY", DAILY); (js "HOURLY", HOURLY); (js "MINUTELY", MINUTELY);
      (js "SECONDLY", SECONDLY) ].

Definition convertFrequencyStringToRRuleConstant (frequency : jsstring) : result Frequency :=
  let frequency := toUpperCase (trim frequency) in
  match frequencyStringToRRuleConstants !! frequency with
  | Some f => Return f
  | None => throwCouldNotConvert
  end.

Definition convertUserByWeekdayToRRuleConstant (byWeekday : jsstring) : result Weekday :=
  let byWeekday := trim (toLowerCase byWeekday) in
  match match_word byWeekday with
  | None => Throw TypeError                 (* [.length] of [null] *)
  | Some byWeekdayWordMatch =>
      if negb (length byWeekdayWordMatch =? 1)%nat then throwCouldNotConvert
      else
        match byWeekdayWordMatch !! 0%nat with
        | None => Throw TypeError           (* [undefined.toLowerCase] *)
        | Some weekday =>
            (* handle prefix case *)
            if test_prefix byWeekday then
              match match_prefix byWeekday ≫= (.!! 0%nat) with
              | None => Throw TypeError
              | Some prefix =>
                  let n := parseIntNumber prefix in
                  w ← convertUserWeekdayStringToRRuleConstant weekday;
                  nth w n
              end
            else convertUserWeekdayStringToRRuleConstant weekday
        end
  end.

End Converter.

(* ===================================================================== *)
(** ** src/utils/string.helpers.ts: escaping through JSON *)
(* ===================================================================== *)

Module StringHelpers.

Definition QUOTE : N := 0x22.
Definition BACKSLASH : N := 0x5C.

(** *** [JSON.stringify] of a string (ECMA-262, QuoteJSONString) *)

Definition hexDigit (d : N) : N := if d <? 10 then 0x30 + d else 0x61 + (d - 10).

Definition hex4 (c : N) : jsstring :=
  [hexDigit (c / 4096 mod 16); hexDigit (c / 256 mod 16);
   hexDigit (c / 16 mod 16); hexDigit (c mod 16)].

(** [\uXXXX] with lower-case hexadecimal digits. *)
Definition unicodeEscape (c : N) : jsstring := BACKSLASH :: 0x75 :: hex4 c.

Definition isLeadSurrogate (c : N) : bool := between 0xD800 0xDBFF c.
Definition isTrailSurrogate (c : N) : bool := between 0xDC00 0xDFFF c.

(** The escape of one code unit that is not part of a surrogate pair. *)
Definition quoteUnit (c : N) : jsstring :=
  if c =? 0x08 then [BACKSLASH; 0x62]
  else if c =? 0x09 then [BACKSLASH; 0x74]
  else if c =? 0x0A then [BACKSLASH; 0x6E]
  else if c =? 0x0C then [BACKSLASH; 0x66]
  else if c =? 0x0D then [BACKSLASH; 0x72]
  else if c =? QUOTE then [BACKSLASH; QUOTE]
  else if c =? BACKSLASH then [BACKSLASH; BACKSLASH]
  else if (c <? 0x20) || isLeadSurrogate c || isTrailSurrogate c then unicodeEscape c
  else [c].

(** The text between the quotes: the string is read by code points, so a
    lead surrogate followed by a trail surrogate is copied as it is, and a
    lone surrogate is escaped. *)
Fixpoint quoteBody (s : jsstring) : jsstring :=
  match s with
  | [] => []
  | c :: r =>
      if isLeadSurrogate c then
        match r with
        | d :: r' =>
            if isTrailSurrogate d then c :: d :: quoteBody r'
            else quoteUnit c ++ quoteBody r
        | [] => quoteUnit c
        end
      else quoteUnit c ++ quoteBody r
  end.

Definition quoteJSONString (s : jsstring) : jsstring := QUOTE :: quoteBody s ++ [QUOTE].

(** [JSON.stringify({s})] for a string [s]: no white space is inserted. *)
Definition stringify_s (s : jsstring) : jsstring :=
  js "{" ++ [QUOTE] ++ js "s" ++ [QUOTE] ++ js ":" ++ quoteJSONString s ++ js "}".

(** *** The regular expression of [escapeControlCodes] *)

Fixpoint stripPrefix (p s : jsstring) : option jsstring :=
  match p, s with
  | [], _ => Some s
  | a :: p', b :: s' => if a =? b then stripPrefix p' s' else None
  | _ :: _, [] => None
  end.

Definition stripSuffix (p s : jsstring) : option jsstring :=
  @rev N <$> stripPrefix (rev p) (rev s).

(** The match of the anchored expression of [escapeControlCodes], giving
    its named group [s]; [None] is [null].  The expression reads: an opening
    brace, the quoted key s, a colon, any white space, a quote, the group
    (any run of [.]), a quote, a closing brace, end of input.  After the
    fixed head the white-space star takes the whole run of white space and a
    quote must follow; the group is what lies before the final quote and
    brace, and [.] refuses line terminators. *)
Definition match_s (t : jsstring) : option jsstring :=
  r ← stripPrefix (js "{" ++ [QUOTE] ++ js "s" ++ [QUOTE] ++ js ":") t;
  match dropWhile isWhiteSpace r with
  | q :: body =>
      if q =? QUOTE then
        g ← stripSuffix (QUOTE :: js "}") body;
        if forallb (fun c => negb (isLineTerminator c)) g then Some g else None
      else None
  | [] => None
  end.

Definition escapeControlCodes (s : jsstring) : result jsstring :=
  match match_s (stringify_s s) with
  | None => Throw TypeError                 (* [.groups] of [null] *)
  | Some g => Return g
  end.

(** *** [JSON.parse] *)

Inductive json :=
| JNull
| JBool (b : bool)
| JNumber (text : jsstring)
| JString (s : jsstring)
| JArray (elements : list json)
| JObject (members : list (jsstring * json)).

Definition isJsonWs (c : N) : bool :=
  (c =? 0x20) || (c =? 0x09) || (c =? 0x0A) || (c =? 0x0D).

Definition skipWs (s : jsstring) : jsstring := dropWhile isJsonWs s.

Definition hexValue (c : N) : option N :=
  if between 0x30 0x39 c then Some (c - 0x30)
  else if between 0x61 0x66 c then Some (c - 0x61 + 10)
  else if between 0x41 0x46 c then Some (c - 0x41 + 10)
  else None.

Definition simpleEscape (e : N) : option N :=
  if e =? QUOTE then Some QUOTE
  else if e =? BACKSLASH then Some BACKSLASH
  else if e =? 0x2F then Some 0x2F
  else if e =? 0x62 then Some 0x08
  else if e =? 0x66 then Some 0x0C
  else if e =? 0x6E then Some 0x0A
  else if e =? 0x72 then Some 0x0D
  else if e =? 0x74 then Some 0x09
  else None.

(** A string literal after its opening quote: the decoded string and the
    input left after the closing quote. *)
Fixpoint parseStringBody (s : jsstring) : option (jsstring * jsstring) :=
  match s with
  | [] => None
  | c :: r =>
      if c =? QUOTE then Some ([], r)
      else if c =? BACKSLASH then
        match r with
        | [] => None
        | e :: r' =>
            if e =? 0x75 then
              match r' with
              | h1 :: h2 :: h3 :: h4 :: r'' =>
                  a ← hexValue h1; b ← hexValue h2; c ← hexValue h3; d ← hexValue h4;
                  '(str, rest) ← parseStringBody r'';
                  Some (a * 4096 + b * 256 + c * 16 + d :: str, rest)
              | _ => None
              end
            else
              v ← simpleEscape e;
              '(str, rest) ← parseStringBody r';
              Some (v :: str, rest)
        end
      else if c <? 0x20 then None
      else '(str, rest) ← parseStringBody r; Some (c :: str, rest)
  end.

(** A number literal: an optional minus, then zero or a digit string that
    does not start with zero, then an optional fraction (a point and digits),
    then an optional exponent (e or E, an optional sign, digits).  The value
    is kept as its text. *)
Definition parseNumber (s : jsstring) : option (jsstring * jsstring) :=
  let '(sign, s1) :=
    match s with
    | c :: r => if c =? 0x2D then ([c], r) else ([], s)
    | [] => ([], [])
    end in
  '(int, s2) ←
    match s1 with
    | c :: r =>
        if c =? 0x30 then Some ([c], r)
        else if isDigit c then Some (takeWhile isDigit s1, dropWhile isDigit s1)
        else None
    | [] => None
    end;
  '(frac, s3) ←
    match s2 with
    | c :: r =>
        if c =? 0x2E then
          match takeWhile isDigit r with
          | [] => None
          | ds => Some (c :: ds, dropWhile isDigit r)
          end
        else Some ([], s2)
    | [] => Some ([], s2)
    end;
  '(exp, s4) ←
    match s3 with
    | c :: r =>
        if (c =? 0x65) || (c =? 0x45) then
          let '(esign, r1) :=
            match r with
            | d :: r' => if isSign d then ([d], r') else ([], r)
            | [] => ([], [])
            end in
          match takeWhile isDigit r1 with
          | [] => None
          | ds => Some (c :: esign ++ ds, dropWhile isDigit r1)
          end
        else Some ([], s3)
    | [] => Some ([], s3)
    end;
  Some (sign ++ int ++ frac ++ exp, s4).

(** A JSON value.  [fuel] bounds the nesting depth and the number of members
    or elements read at one level; [JSON_parse] starts it above the length
    of the text, and every step of either kind consumes input. *)
Fixpoint parseValue (fuel : nat) (s : jsstring) : option (json * jsstring) :=
  match fuel with
  | O => None
  | S fuel =>
      match skipWs s with
      | [] => None
      | c :: r =>
          if c =? QUOTE then
            '(str, rest) ← parseStringBody r; Some (JString str, rest)
          else if c =? 0x7B then
            match skipWs r with
            | 0x7D :: rest => Some (JObject [], rest)
            | _ =>
                (fix members (k : nat) (s : jsstring) (acc : list (jsstring * json)) :=
                   match k with
                   | O => None
                   | S k =>
                       match skipWs s with
                       | q :: s1 =>
                           if q =? QUOTE then
                             '(key, s2) ← parseStringBody s1;
                             match skipWs s2 with
                             | colon :: s3 =>
                                 if colon =? 0x3A then
                                   '(v, s4) ← parseValue fuel s3;
                                   match skipWs s4 with
                                   | d :: s5 =>
                                       if d =? 0x2C then members k s5 (acc ++ [(key, v)])
                                       else if d =? 0x7D then Some (JObject (acc ++ [(key, v)]), s5)
                                       else None
                                   | [] => None
                                   end
                                 else None
                             | [] => None
                             end
                           else None
                       | [] => None
                       end
                   end) fuel r []
            end
          else if c =? 0x5B then
            match skipWs r with
            | 0x5D :: rest => Some (JArray [], rest)
            | _ =>
                (fix elements (k : nat) (s : jsstring) (acc : list json) :=
                   match k with
                   | O => None
                   | S k =>
                       '(v, s1) ← parseValue fuel s;
                       match skipWs s1 with
                       | d :: s2 =>
                           if d =? 0x2C then elements k s2 (acc ++ [v])
                           else if d =? 0x5D then Some (JArray (acc ++ [v]), s2)
                           else None
                       | [] => None
                       end
                   end) fuel r []
            end
          else if c =? 0x74 then rest ← stripPrefix (js "true") (c :: r); Some (JBool true, rest)
          else if c =? 0x66 then rest ← stripPrefix (js "false") (c :: r); Some (JBool false, rest)
          else if c =? 0x6E then rest ← stripPrefix (js "null") (c :: r); Some (JNull, rest)
          else '(text, rest) ← parseNumber (c :: r); Some (JNumber text, rest)
      end
  end.

Definition JSON_parse (text : jsstring) : result json :=
  match parseValue (S (length text)) text with
  | Some (v, rest) =>
      match skipWs rest with
      | [] => Return v
      | _ => Throw SyntaxError
      end
  | None => Throw SyntaxError
  end.

(** Reading property [key] of a parsed value: of two members with the same
    key the later one wins; a missing property is [undefined] ([None]). *)
Definition getProperty (v : json) (key : jsstring) : result (option json) :=
  match v with
  | JObject members => Return (snd <$> last (filter (fun kv => kv.1 = key) members))
  | JNull => Throw TypeError
  | _ => Return None
  end.

(** [JSON.parse] of the template literal that puts [s] between the quotes
    of the value of key s (the template has one space after the colon),
    then property [s] of the result. *)
Definition unescapeControlCodes (s : jsstring) : result (option json) :=
  v ← JSON_parse (js "{" ++ [QUOTE] ++ js "s" ++ [QUOTE] ++ js ": " ++ [QUOTE] ++ s ++ [QUOTE] ++ js "}");
  getProperty v (js "s").

(** *** [capitalize] *)

(** [s.toLowerCase().replace(/^\w/, (c) => c.toUpperCase())]: the string is
    lower-cased, and if its first code unit is then a word character, that
    code unit is replaced by its upper case. *)
Definition capitalize (s : jsstring) : jsstring :=
  match toLowerCase s with
  | c :: r => if isWord c then toUpperCase [c] ++ r else c :: r
  | [] => []
  end.

End StringHelpers.

(* ===================================================================== *)
(** ** JavaScript values, objects and the heap *)
(* ===================================================================== *)

Module Heap.

Import Converter.

(** The values that the formulas of [src/pack.ts] put into option objects.
    Numbers that the host passes through are rationals; arrays are kept as
    values (no formula updates an array in place). *)
Inductive value :=
| VUndefined
| VNull
| VBool (b : bool)
| VNumber (x : Q)
| VString (s : jsstring)
| VDate (t : Z)
| VFrequency (f : Frequency)
| VWeekday (w : Weekday)
| VArray (elements : list value).

(** The [typeof] operator. *)
Definition typeof (v : value) : jsstring :=
  match v with
  | VUndefined => js "undefined"
  | VBool _ => js "boolean"
  | VNumber _ | VFrequency _ => js "number"
  | VString _ => js "string"
  | VNull | VDate _ | VWeekday _ | VArray _ => js "object"
  end.

(** A plain object: its own enumerable, configurable data properties.  The
    heap maps references to objects, so that a mutation is seen through
    every reference to the same object. *)
Abbreviation object := (gmap jsstring value).
Abbreviation loc := positive.
Abbreviation heap := (gmap loc object).

(** Computations that read and write the heap and may throw; a throw keeps
    the heap as the thrown-from state left it. *)
Definition M (A : Type) : Type := heap → result A * heap.

#[export] Instance M_ret : MRet M := fun A a h => (Return a, h).
#[export] Instance M_bind : MBind M := fun A B f m h =>
  match m h with
  | (Return a, h') => f a h'
  | (Throw e, h') => (Throw e, h')
  end.

Definition liftR {A} (r : result A) : M A := fun h => (r, h).

(** [try { m } catch (e) { handler e }] *)
Definition tryCatch {A} (m : M A) (handler : exn → M A) : M A := fun h =>
  match m h with
  | (Throw e, h') => handler e h'
  | r => r
  end.

(** An object literal (or any expression that builds a new object). *)
Definition alloc (o : object) : M loc := fun h =>
  let l := fresh (dom h) in (Return l, <[l := o]> h).

(** [Object.keys(o)]; a reference to no object stands for [undefined] or
    [null], on which [Object.keys] throws. *)
Definition Object_keys (o : loc) : M (list jsstring) := fun h =>
  match h !! o with
  | Some obj => (Return ((map_to_list obj).*1), h)
  | None => (Throw TypeError, h)
  end.

(** [o[key]]: a missing property reads as [undefined]. *)
Definition get (o : loc) (key : jsstring) : M value := fun h =>
  match h !! o with
  | Some obj => (Return (default VUndefined (obj !! key)), h)
  | None => (Throw TypeError, h)
  end.

(** [delete o[key]] *)
Definition delete_property (o : loc) (key : jsstring) : M unit := fun h =>
  match h !! o with
  | Some obj => (Return (), <[o := delete key obj]> h)
  | None => (Throw TypeError, h)
  end.

(** [xs.forEach(f)] *)
Fixpoint forEach {A} (xs : list A) (f : A → M unit) : M unit :=
  match xs with
  | [] => mret ()
  | x :: r => f x;; forEach r f
  end.

(** [{...a, ...b}]: a new object with the properties of [a] overwritten by
    those of [b]. *)
Definition spread (a b : loc) : M loc := fun h =>
  alloc (default ∅ (h !! b) ∪ default ∅ (h !! a)) h.

(** The properties of the object behind a reference. *)
Definition read (o : loc) : M object := fun h =>
  match h !! o with
  | Some obj => (Return obj, h)
  | None => (Throw TypeError, h)
  end.

End Heap.

(* ===================================================================== *)
(** ** src/utils/object.helpers.ts *)
(* ===================================================================== *)

Module ObjectHelpers.

Import Heap.

Definition deleteUndefinedProps (o : loc) : M loc :=
  keys ← Object_keys o;
  forEach keys (fun key =>
    v ← get o key;
    if bool_decide (typeof v = js "undefined") then delete_property o key
    else mret ());;
  mret o. (* mutated object *)

End ObjectHelpers.

(* ===================================================================== *)
(** ** src/utils/enum.helpers.ts *)
(* ===================================================================== *)

Module EnumHelpers.

Import Heap.

(** [Object.keys(enumObject).filter(k => typeof enumObject[k] === "number")];
    the object is only read, so it is taken by value. *)
Definition getEnumValues (enumObject : object) : list jsstring :=
  List.filter
    (fun k => bool_decide (typeof (default VUndefined (enumObject !! k)) = js "number"))
    ((map_to_list enumObject).*1).

End EnumHelpers.

(* ===================================================================== *)
(** ** src/pack.ts: the formulas *)
(* ===================================================================== *)

Module Pack.

Import Converter StringHelpers Heap ObjectHelpers.

Definition MAX_CONSUMED_RECURRENCES : Q := 1000.
Definition BLANK : jsstring := [].

(** The rrule engine ([RRule], [rrulestr]) is an npm dependency and not part
    of the sources; the formulas are stated over any engine.  A rule is an
    opaque engine object.  [rrulestr] either throws an error with a message
    ([inl]) or builds a rule; [occurrences] is the ordered sequence of
    instants (milliseconds since the epoch) that the rule stands for.

    The engine reads the wall clock whenever it builds a rule, to give a
    rule without [dtstart] its anchor.  The reading (milliseconds since the
    epoch) is the first argument of [rrulestr] and of [new_RRule], and every
    formula takes the reading of each rule it builds. *)
Class Engine := {
  RRule : Type;
  rrulestr : Z → option json → jsstring + RRule;
  new_RRule : Z → object → result RRule;
  origOptions : RRule → object;
  toString : RRule → jsstring;
  occurrences : RRule → list Z;
  toISOString : Z → jsstring;
}.

Section Formulas.

Context `{Engine}.

(** *** Engine queries *)

(** Modelled from the spec: the stop predicate of the engine's [all] and
    [between].  It is evaluated on each produced occurrence with that
    occurrence's value and its 0-based index; when it returns false the
    generation halts at once and that occurrence is not part of the result. *)
Fixpoint collect (iterator : Z → nat → bool) (ds acc : list Z) : list Z :=
  match ds with
  | [] => acc
  | d :: r => if iterator d (length acc) then collect iterator r (acc ++ [d]) else acc
  end.

(** Modelled from the spec: [rule.all(iterator)], the full ascending
    sequence subject to the stop predicate; without a predicate, the full
    sequence. *)
Definition all (rule : RRule) (iterator : option (Z → nat → bool)) : list Z :=
  match iterator with
  | Some it => collect it (occurrences rule) []
  | None => occurrences rule
  end.

Definition inRange (after before : Z) (inc : bool) (t : Z) : bool :=
  if inc then (after <=? t)%Z && (t <=? before)%Z
  else (after <? t)%Z && (t <? before)%Z.

(** Modelled from the spec: [rule.between(after, before, inc, iterator)], the
    ascending subsequence within the bounds, subject to the stop predicate. *)
Definition between (rule : RRule) (after before : Z) (inc : bool)
    (iterator : Z → nat → bool) : list Z :=
  collect iterator (List.filter (inRange after before inc) (occurrences rule)) [].

(** Modelled from the spec: [rule.after(dt, inc)], the first occurrence
    later than [dt] (or equal to it when [inc]), or [null]. *)
Definition after (rule : RRule) (dt : Z) (inc : bool) : option Z :=
  head (List.filter (fun t => if inc then (dt <=? t)%Z else (dt <? t)%Z) (occurrences rule)).

(** Modelled from the spec: [rule.before(dt, inc)], the last occurrence
    earlier than [dt] (or equal to it when [inc]), or [null]. *)
Definition before (rule : RRule) (dt : Z) (inc : bool) : option Z :=
  last (List.filter (fun t => if inc then (t <=? dt)%Z else (t <? dt)%Z) (occurrences rule)).

(** *** Parsing the rule parameter *)

(** [try { rule = rrulestr(s) } catch (e) { throw new UserVisibleError(e.message) }] *)
Definition parseRule (now : Z) (unescapedRRule : option json) : result RRule :=
  match rrulestr now unescapedRRule with
  | inl message => Throw (UserVisibleError message)
  | inr rule => Return rule
  end.

(** *** All, Between, First, After, Before *)

Definition Qltb (x y : Q) : bool := negb (Qle_bool y x).

Definition limitingIterator (limit : Q) : Z → nat → bool :=
  fun date i => Qltb (inject_Z (Z.of_nat i)) limit.

Definition All (now : Z) (rrule : jsstring) (limit : option Q) : result (list jsstring) :=
  let limit := default (100 : Q) limit in
  let limit := Qmin limit MAX_CONSUMED_RECURRENCES in (* silently cap *)
  unescapedRRule ← unescapeControlCodes rrule;
  rule ← parseRule now unescapedRRule;
  Return (toISOString <$> all rule (Some (limitingIterator limit))).

Definition Between (now : Z) (rrule : jsstring) (after before : Z) (limit : option Q)
    (include : option bool) : result (list jsstring) :=
  let limit := default (100 : Q) limit in
  let include := default false include in
  let limit := Qmin limit MAX_CONSUMED_RECURRENCES in (* silently cap *)
  unescapedRRule ← unescapeControlCodes rrule;
  rule ← parseRule now unescapedRRule;
  Return (toISOString <$> between rule after before include (limitingIterator limit)).

(** [rule.all()[0].toISOString()]: indexing past the end gives [undefined],
    whose method call throws. *)
Definition firstToISOString (ds : list Z) : result jsstring :=
  match ds !! 0%nat with
  | Some d => Return (toISOString d)
  | None => Throw TypeError
  end.

Definition First (now : Z) (rrule : jsstring) : result jsstring :=
  unescapedRRule ← unescapeControlCodes rrule;
  rule ← parseRule now unescapedRRule;
  if (0 <? length (all rule None))%nat then firstToISOString (all rule None)
  else Return BLANK.

Definition After (now : Z) (rrule : jsstring) (date : Z) (include : option bool) :
    result jsstring :=
  let include := default false include in
  unescapedRRule ← unescapeControlCodes rrule;
  rule ← parseRule now unescapedRRule;
  match after rule date include with
  | Some result => Return (toISOString result)
  | None => Return BLANK
  end.

Definition Before (now : Z) (rrule : jsstring) (date : Z) (include : option bool) :
    result jsstring :=
  let include := default false include in
  unescapedRRule ← unescapeControlCodes rrule;
  rule ← parseRule now unescapedRRule;
  match before rule date include with
  | Some result => Return (toISOString result)
  | None => Return BLANK
  end.

(** *** CreateRRule and ModifyRRule *)

(** The optional parameters shared by the two formulas; [None] is a
    parameter that was not supplied ([undefined]). *)
Record RuleParams := {
  dtstart : option Z;
  interval : option Q;
  wkst : option jsstring;
  count : option Q;
  until : option Z;
  timezone : option jsstring;
  bysetpos : option (list value);
  bymonth : option (list jsstring);
  bymonthday : option (list value);
  byyearday : option (list value);
  byweekno : option (list value);
  byweekday : option (list jsstring);
  byhour : option (list value);
  byminute : option (list value);
  bysecond : option (list value);
}.

Definition orUndefined {A} (inj : A → value) (x : option A) : value :=
  match x with
  | Some a => inj a
  | None => VUndefined
  end.

(** [x !== undefined ? f(x) : undefined] for a converter [f] that may throw. *)
Definition convertIfDefined {A} (f : A → result value) (x : option A) : result value :=
  match x with
  | Some a => f a
  | None => Return VUndefined
  end.

(** The object literal handed to [deleteUndefinedProps]; its property values
    are evaluated in source order, so the first failing conversion throws. *)
Definition optionsLiteral (freq : result value) (p : RuleParams) : result object :=
  freq ← freq;
  wkst ← convertIfDefined (fun w => VWeekday <$> convertUserWeekdayStringToRRuleConstant w) (wkst p);
  bymonth ← convertIfDefined
    (fun ms => xs ← mapR convertUserMonthStringToRRuleConstant ms;
               Return (VArray ((fun m => VNumber (inject_Z m)) <$> xs))) (bymonth p);
  byweekday ← convertIfDefined
    (fun ds => xs ← mapR convertUserByWeekdayToRRuleConstant ds;
               Return (VArray (VWeekday <$> xs))) (byweekday p);
  Return (list_to_map
    [ (js "freq", freq);
      (js "dtstart", orUndefined VDate (dtstart p));
      (js "interval", orUndefined VNumber (interval p));
      (js "wkst", wkst);
      (js "count", orUndefined VNumber (count p));
      (js "until", orUndefined VDate (until p));
      (js "tzid", orUndefined VString (timezone p));
      (js "bysetpos", orUndefined VArray (bysetpos p));
      (js "bymonth", bymonth);
      (js "bymonthday", orUndefined VArray (bymonthday p));
      (js "byyearday", orUndefined VArray (byyearday p));
      (js "byweekno", orUndefined VArray (byweekno p));
      (js "byweekday", byweekday);
      (js "byhour", orUndefined VArray (byhour p));
      (js "byminute", orUndefined VArray (byminute p));
      (js "bysecond", orUndefined VArray (bysecond p)) ]).

(** The [catch] clause around the literal: a [CouldNotConvertError] is
    re-thrown as a [UserVisibleError] with the same message, anything else
    is re-thrown as it is. *)
Definition rethrowUserVisible {A} (e : exn) : M A :=
  match e with
  | CouldNotConvertError message => liftR (Throw (UserVisibleError message))
  | _ => liftR (Throw e)
  end.

Definition buildOptions (freq : result value) (p : RuleParams) : M loc :=
  tryCatch
    (literal ← liftR (optionsLiteral freq p);
     o ← alloc literal;
     deleteUndefinedProps o)
    rethrowUserVisible.

(** [new RRule(options)] and [escapeControlCodes(rule.toString())] *)
Definition constructAndRender (now : Z) (options : loc) : M jsstring :=
  o ← read options;
  rule ← liftR (new_RRule now o);
  liftR (escapeControlCodes (toString rule)).

Definition CreateRRule_options (frequency : jsstring) (p : RuleParams) : M loc :=
  buildOptions (VFrequency <$> convertFrequencyStringToRRuleConstant frequency) p.

Definition CreateRRule (now : Z) (frequency : jsstring) (p : RuleParams) : M jsstring :=
  options ← CreateRRule_options frequency p;
  constructAndRender now options.

(** The options object from which ModifyRRule constructs its rule. *)
Definition ModifyRRule_options (now : Z) (rrule : jsstring) (frequency : option jsstring)
    (p : RuleParams) : M loc :=
  unescapedRRule ← liftR (unescapeControlCodes rrule);
  rule ← liftR (parseRule now unescapedRRule);
  options ← alloc (origOptions rule);
  newOptions ← buildOptions
    (convertIfDefined (fun f => VFrequency <$> convertFrequencyStringToRRuleConstant f) frequency) p;
  spread options newOptions.

(** ModifyRRule builds two rules, one after the other: [now] is the clock
    reading when [rrulestr] runs and [later] the reading when the new rule
    is constructed. *)
Definition ModifyRRule (now later : Z) (rrule : jsstring) (frequency : option jsstring)
    (p : RuleParams) : M jsstring :=
  options ← ModifyRRule_options now rrule frequency p;
  constructAndRender later options.

End Formulas.

End Pack.

(* ===================================================================== *)
(** ** src/pack.ts: the text formulas *)
(* ===================================================================== *)

Module PackText.

Import Converter StringHelpers Heap Pack.

(** The engine's text rendering and parsing, and its list of frequency
    names [RRule.FREQUENCIES]; [fromText] either throws an error with a
    message ([inl]) or builds a rule, for which it reads the clock. *)
Class TextEngine `{Engine} := {
  toText : RRule → jsstring;
  isFullyConvertibleToText : RRule → bool;
  fromText : Z → jsstring → jsstring + RRule;
  FREQUENCIES : list jsstring;
}.

Section TextFormulas.

Context `{TextEngine}.

Definition ToText (now : Z) (rrule : jsstring) : result jsstring :=
  unescapedRRule ← unescapeControlCodes rrule;
  rule ← parseRule now unescapedRRule;
  Return (toText rule).

Definition IsFullyConvertibleToText (now : Z) (rrule : jsstring) : result bool :=
  unescapedRRule ← unescapeControlCodes rrule;
  rule ← parseRule now unescapedRRule;
  Return (isFullyConvertibleToText rule).

(** [try { rule = RRule.fromText(text) } catch (e) { throw new UserVisibleError(e.message) }] *)
Definition parseText (now : Z) (text : jsstring) : result RRule :=
  match fromText now text with
  | inl message => Throw (UserVisibleError message)
  | inr rule => Return rule
  end.

Definition FromText (now : Z) (text : jsstring) : result jsstring :=
  rule ← parseText now text;
  escapeControlCodes (toString rule).

Definition Frequencies : list jsstring := capitalize <$> FREQUENCIES.

End TextFormulas.

End PackText.

(* ===================================================================== *)
(** ** A small engine on which the formulas can be run *)
(* ===================================================================== *)

Module DailyEngine.

Import Converter StringHelpers Heap Pack.

Definition DAY_MS : Z := 86400000.

(** 2024-01-02T00:00:00.000Z, the anchor of the spec's first example, and
    the same hour of the next day: two readings of the clock. *)
Definition NOW : Z := 1704153600000.
Definition NEXT_DAY : Z := 1704240000000.

(** A rule of this engine: the options it was built from, and its anchor.
    The rules it knows are daily rules with a count that state no anchor. *)
Record Rule := mkRule { optionsOf : object; anchorOf : Z }.

Definition countOf (o : object) : nat :=
  match o !! js "count" with
  | Some (VNumber q) => Z.to_nat (Qfloor q)
  | _ => 0
  end.

(** Modelled from the spec: the anchor of a rule that states none is the
    current time at construction; the engine keeps it in whole seconds. *)
Definition defaultAnchor (now : Z) : Z := (now - now mod 1000)%Z.

(** Modelled from the spec: the occurrence generator on a daily rule with a
    count, interval 1 and no by-filter.  The periods are the days from the
    anchor on, each yields the anchor's time of day, and [count] ends the
    sequence after that many occurrences. *)
Definition dailyOccurrences (rule : Rule) : list Z :=
  (fun k => anchorOf rule + Z.of_nat k * DAY_MS)%Z <$> seq 0 (countOf (optionsOf rule)).

Definition RULE_HEAD : jsstring := js "RRULE:FREQ=DAILY;COUNT=".

(** The options of a daily rule with a count. *)
Definition dailyOptions (count : Z) : object :=
  list_to_map [ (js "freq", VFrequency DAILY); (js "count", VNumber (inject_Z count)) ].

(** The daily rule with a count that is built when the clock reads [now]. *)
Definition dailyRule (now : Z) (count : Z) : Rule :=
  mkRule (dailyOptions count) (defaultAnchor now).

(** The only rule strings this engine reads are daily rules with a count. *)
Definition readCount (s : option json) : jsstring + Z :=
  match s with
  | Some (JString text) =>
      match stripPrefix RULE_HEAD text with
      | Some (d :: ds) =>
          if forallb isDigit (d :: ds) then inr (decimalValue (d :: ds))
          else inl (js "Invalid COUNT")
      | _ => inl (js "Unsupported RFC prop")
      end
  | _ => inl (js "Invalid empty string")
  end.

Definition dailyRrulestr (now : Z) (s : option json) : jsstring + Rule :=
  match readCount s with
  | inl message => inl message
  | inr count => inr (dailyRule now count)
  end.

Definition dailyToString (rule : Rule) : jsstring :=
  RULE_HEAD ++ js (pretty (countOf (optionsOf rule))).

(** [Date.prototype.toISOString] for the years 0000 to 9999. *)
Definition pad (width : nat) (z : Z) : jsstring :=
  let digits := js (pretty z) in
  replicate (width - length digits) 0x30 ++ digits.

Definition civilFromDays (days : Z) : Z * Z * Z :=
  let z := (days + 719468)%Z in
  let era := (z / 146097)%Z in
  let doe := (z - era * 146097)%Z in
  let yoe := ((doe - doe / 1460 + doe / 36524 - doe / 146096) / 365)%Z in
  let doy := (doe - (365 * yoe + yoe / 4 - yoe / 100))%Z in
  let mp := ((5 * doy + 2) / 153)%Z in
  let d := (doy - (153 * mp + 2) / 5 + 1)%Z in
  let m := (if mp <? 10 then mp + 3 else mp - 9)%Z in
  let y := (yoe + era * 400 + (if m <=? 2 then 1 else 0))%Z in
  (y, m, d).

Definition isoString (t : Z) : jsstring :=
  let '(y, m, d) := civilFromDays (t / DAY_MS) in
  let ms := (t mod DAY_MS)%Z in
  pad 4 y ++ js "-" ++ pad 2 m ++ js "-" ++ pad 2 d ++ js "T"
  ++ pad 2 (ms / 3600000) ++ js ":" ++ pad 2 (ms / 60000 mod 60) ++ js ":"
  ++ pad 2 (ms / 1000 mod 60) ++ js "." ++ pad 3 (ms mod 1000) ++ js "Z".

#[export] Instance dailyEngine : Engine := {|
  RRule := Rule;
  rrulestr := dailyRrulestr;
  new_RRule := fun now o => Return (mkRule o (defaultAnchor now));
  origOptions := optionsOf;
  toString := dailyToString;
  occurrences := dailyOccurrences;
  toISOString := isoString;
|}.

(** The text side of the small engine: it renders and reads the one phrase
    "every day for N times". *)
Definition TEXT_HEAD : jsstring := js "every day for ".
Definition TEXT_TAIL : jsstring := js " times".

Definition dailyToText (rule : Rule) : jsstring :=
  TEXT_HEAD ++ js (pretty (countOf (optionsOf rule))) ++ TEXT_TAIL.

Definition dailyFromText (now : Z) (text : jsstring) : jsstring + Rule :=
  match stripPrefix TEXT_HEAD (toLowerCase text) ≫= stripSuffix TEXT_TAIL with
  | Some (d :: ds) =>
      if forallb isDigit (d :: ds) then inr (dailyRule now (decimalValue (d :: ds)))
      else inl (js "Unexpected symbol")
  | _ => inl (js "Unexpected symbol")
  end.

#[export] Instance dailyTextEngine : @PackText.TextEngine dailyEngine := {|
  PackText.toText := dailyToText;
  PackText.isFullyConvertibleToText := fun _ => true;
  PackText.fromText := dailyFromText;
  PackText.FREQUENCIES :=
    js <$> ["YEARLY"; "MONTHLY"; "WEEKLY"; "DAILY"; "HOURLY"; "MINUTELY"; "SECONDLY"];
|}.

End DailyEngine.

(* ===================================================================== *)
(** ** Notions used in the statements *)
(* ===================================================================== *)

Import Converter StringHelpers Heap ObjectHelpers EnumHelpers Pack PackText.

(** The only error a computation can throw is a CouldNotConvertError with
    an empty message. *)
Definition throwsOnlyEmpty {A} (r : result A) : Prop :=
  ∀ e, r = Throw e → e = CouldNotConvertError [].

(** "The error carries the literal": the literal occurs in its message. *)
Definition carries (e : exn) (literal : jsstring) : Prop :=
  match e with
  | CouldNotConvertError m | EngineError m | UserVisibleError m =>
      ∃ a b, m = a ++ literal ++ b
  | TypeError | SyntaxError => False
  end.

(** One round of the [forEach] callback, on the object itself. *)
Definition deleteStep (obj : object) (key : jsstring) : object :=
  if bool_decide (typeof (default VUndefined (obj !! key)) = js "undefined")
  then delete key obj else obj.

(** An object with one defined and two undefined properties. *)
Definition sampleObject : object :=
  <[js "interval" := VNumber 2]> (<[js "count" := VUndefined]> (<[js "until" := VUndefined]> ∅)).

(** The parameters of a call that supplies [count] alone. *)
Definition countParams (c : Q) : RuleParams := {|
  dtstart := None; interval := None; wkst := None; count := Some c; until := None;
  timezone := None; bysetpos := None; bymonth := None; bymonthday := None;
  byyearday := None; byweekno := None; byweekday := None; byhour := None;
  byminute := None; bysecond := None |}.




(** The parameters of a call that supplies [bymonth] alone. *)
Definition monthParams (ms : list jsstring) : RuleParams := {|
  dtstart := None; interval := None; wkst := None; count := None; until := None;
  timezone := None; bysetpos := None; bymonth := Some ms; bymonthday := None;
  byyearday := None; byweekno := None; byweekday := None; byhour := None;
  byminute := None; bysecond := None |}.

(** A code unit is copied by [quoteBody] together with its successor exactly
    when the two form a surrogate pair. *)
Definition startsPair (s : jsstring) : bool :=
  match s with
  | c :: d :: _ => isLeadSurrogate c && isTrailSurrogate d
  | _ => false
  end.

(** Neither U+2028 LINE SEPARATOR nor U+2029 PARAGRAPH SEPARATOR. *)
Definition notLineSeparator (c : N) : Prop := c ≠ 0x2028 ∧ c ≠ 0x2029.

(** The template of unescapeControlCodes up to and including the quote that
    opens the value. *)
Definition TEMPLATE_HEAD : jsstring := [0x7B; 0x22; 0x73; 0x22; 0x3A; 0x20; 0x22].

(** The month table of the spec: code, full name, three-letter abbreviation. *)
Definition MONTHS : list (Z * string * string) :=
  [ (1, "January", "Jan"); (2, "February", "Feb"); (3, "March", "Mar");
    (4, "April", "Apr"); (5, "May", "May"); (6, "June", "Jun");
    (7, "July", "Jul"); (8, "August", "Aug"); (9, "September", "Sep");
    (10, "October", "Oct"); (11, "November", "Nov"); (12, "December", "Dec") ]%Z.

(** A digit followed by at least one more code unit. *)
Definition digitThenMore (s : jsstring) : bool :=
  match s with
  | d :: _ :: _ => isDigit d
  | _ => false
  end.

(** A code unit that a JSON string literal holds as it is: not a control
    character, not a quote, not a backslash. *)
Definition plainUnit (c : N) : Prop := 0x20 ≤ c ∧ c ≠ QUOTE ∧ c ≠ BACKSLASH.

(** A plain code unit that [JSON.stringify] copies and [.] matches: no
    surrogate and no line separator. *)
Definition printableUnit (c : N) : Prop :=
  plainUnit c ∧ isLeadSurrogate c = false ∧ isTrailSurrogate c = false
  ∧ notLineSeparator c.

#[local] Instance notLineSeparator_dec c : Decision (notLineSeparator c).
Proof. unfold notLineSeparator. apply _. Defined.

#[local] Instance plainUnit_dec c : Decision (plainUnit c).
Proof. unfold plainUnit. apply _. Defined.

#[local] Instance printableUnit_dec c : Decision (printableUnit c).
Proof. unfold printableUnit. apply _. Defined.

(** The weekday of an ISO day number, 1 for Monday to 7 for Sunday. *)
Definition isoWeekday (d : Z) : option WeekdayStr :=
  match d with
  | 1 => Some MO | 2 => Some TU | 3 => Some WE | 4 => Some TH
  | 5 => Some FR | 6 => Some SA | 7 => Some SU
  | _ => None
  end%Z.

(** A string of ASCII code units. *)
Definition isAscii (s : jsstring) : Prop := Forall (fun c => c < 0x80) s.

#[local] Instance isAscii_dec s : Decision (isAscii s).
Proof. unfold isAscii. apply _. Defined.


(** The text that closes a JSON string and opens a second member with the
    key s: a quote, a comma, the quoted key, a colon, a quote. *)
Definition SECOND_MEMBER : jsstring := [0x22; 0x2C; 0x22; 0x73; 0x22; 0x3A; 0x22].

(* ===================================================================== *)
(** * Properties *)
(* ===================================================================== *)

(** ** Strings *)

Lemma dropWhile_Forall (P : N → Prop) p s :
  Forall P s → Forall P (dropWhile p s).
Proof.
  induction 1 as [|c r Hc Hr IH]; simpl; [constructor|].
  destruct (p c); [exact IH | by constructor].
Qed.

Lemma trim_Forall (P : N → Prop) s : Forall P s → Forall P (trim s).
Proof.
  intros Hs. unfold trim, trimEnd, trimStart.
  apply Forall_rev, dropWhile_Forall, Forall_rev, dropWhile_Forall, Hs.
Qed.

Lemma dropWhile_all p s : Forall (fun c => p c = true) s → dropWhile p s = [].
Proof. induction 1 as [|c r Hc Hr IH]; simpl; [done|]. by rewrite Hc. Qed.

Lemma match_word_null s :
  Forall (fun c => isWord c = false) s → match_word s = None.
Proof.
  intros Hs. unfold match_word. rewrite dropWhile_all; [done|].
  eapply Forall_impl; [exact Hs|]. intros c Hc; simpl in Hc. by rewrite Hc.
Qed.

(** ** The converters *)

(** What a [switch] returns is one of its case bodies or its default. *)
Lemma switch_ind {A} (P : A → Prop) x cases (default : A) :
  Forall (fun c => P c.2) cases → P default → P (switch x cases default).
Proof.
  intros Hcases Hdef. induction Hcases as [|[labels body] rest Hb Hrest IH]; simpl; [done|].
  case_bool_decide; [exact Hb | exact IH].
Qed.

Lemma convertUserWeekdayString_throws s :
  throwsOnlyEmpty (convertUserWeekdayStringToRRuleConstant s).
Proof.
  unfold convertUserWeekdayStringToRRuleConstant.
  apply switch_ind; [|by intros e [= <-]].
  repeat constructor; by intros e [=].
Qed.

Lemma convertUserMonthString_throws s :
  throwsOnlyEmpty (convertUserMonthStringToRRuleConstant s).
Proof.
  unfold convertUserMonthStringToRRuleConstant.
  apply switch_ind; [|by intros e [= <-]].
  repeat constructor; by intros e [=].
Qed.

Lemma convertFrequencyString_throws s :
  throwsOnlyEmpty (convertFrequencyStringToRRuleConstant s).
Proof.
  unfold convertFrequencyStringToRRuleConstant. intros e.
  destruct (frequencyStringToRRuleConstants !! _); [done | by intros [= <-]].
Qed.

(** Whenever the weekday, month or frequency converter rejects a token, the
    error is a CouldNotConvertError built without arguments: its message is
    empty, whatever the token and the field were. *)
Lemma conversion_error_has_empty_message (s : jsstring) (e : exn) :
  convertUserWeekdayStringToRRuleConstant s = Throw e
  ∨ convertUserMonthStringToRRuleConstant s = Throw e
  ∨ convertFrequencyStringToRRuleConstant s = Throw e →
  e = CouldNotConvertError [].
Proof.
  intros [Hw | [Hm | Hf]].
  - by apply (convertUserWeekdayString_throws s).
  - by apply (convertUserMonthString_throws s).
  - by apply (convertFrequencyString_throws s).
Qed.

(** An error with an empty message carries no literal but the empty one. *)
Lemma empty_message_carries_nothing (literal : jsstring) :
  literal ≠ [] →
  ¬ carries (CouldNotConvertError []) literal ∧ ¬ carries (UserVisibleError []) literal.
Proof.
  intros Hne. split; intros (a & b & Hm); destruct a; simpl in Hm; try done;
    destruct literal; done.
Qed.

(** C4 fails on the code: the month converter rejects "Xyz" with a
    CouldNotConvertError that was built without arguments, so its message is
    empty and holds neither "xyz" nor the name of the field; the weekday,
    frequency and weekday-with-prefix converters reject it in the same way.
    CreateRRule passes that message on to the caller in a UserVisibleError,
    which is blank as well, whatever the engine and the clock. *)
Theorem conversion_error_message_is_blank :
  convertUserMonthStringToRRuleConstant (js "Xyz") = Throw (CouldNotConvertError [])
  ∧ convertUserWeekdayStringToRRuleConstant (js "Xyz") = Throw (CouldNotConvertError [])
  ∧ convertFrequencyStringToRRuleConstant (js "Xyz") = Throw (CouldNotConvertError [])
  ∧ convertUserByWeekdayToRRuleConstant (js "Xyz") = Throw (CouldNotConvertError [])
  ∧ ¬ carries (CouldNotConvertError []) (js "xyz")
  ∧ ¬ carries (CouldNotConvertError []) (js "bymonth")
  ∧ (∀ (E : Engine) (now : Z) (h : heap),
       @CreateRRule E now (js "Monthly") (monthParams [js "Xyz"]) h
       = (Throw (UserVisibleError []), h))
  ∧ ¬ carries (UserVisibleError []) (js "xyz")
  ∧ ¬ carries (UserVisibleError []) (js "bymonth").
Proof.
  split_and!; try (by apply empty_message_carries_nothing);
    try (vm_compute; reflexivity).
Qed.

(** C2 fails on the code at March: the three-letter abbreviation is
    rejected, the label of the source being the two-letter "ma"; the three
    spellings of February do agree. *)
Theorem march_abbreviation_rejected :
  convertUserMonthStringToRRuleConstant (js "Mar") = Throw (CouldNotConvertError [])
  ∧ convertUserMonthStringToRRuleConstant (js "ma") = Return 3%Z
  ∧ convertUserMonthStringToRRuleConstant (js "March") = Return 3%Z
  ∧ convertUserMonthStringToRRuleConstant (js "Feb") = Return 2%Z
  ∧ convertUserMonthStringToRRuleConstant (js "2") = Return 2%Z
  ∧ convertUserMonthStringToRRuleConstant (js "February") = Return 2%Z.
Proof. repeat split; by vm_compute. Qed.

(** C1 fails on the code: the word match takes the digits of the prefix
    along with the letters, so the weekday lookup sees "1fr" or "2tu" and
    rejects it, although the bare tokens convert. *)
Theorem prefixed_weekday_rejected :
  convertUserByWeekdayToRRuleConstant (js "-1FR") = Throw (CouldNotConvertError [])
  ∧ convertUserByWeekdayToRRuleConstant (js "2TU") = Throw (CouldNotConvertError [])
  ∧ match_word (js "-1fr") = Some [js "1fr"]
  ∧ convertUserByWeekdayToRRuleConstant (js "FR") = Return RRule_FR
  ∧ convertUserByWeekdayToRRuleConstant (js "TU") = Return RRule_TU.
Proof. repeat split; by vm_compute. Qed.

(** C10: on an input whose lower-cased text holds no word character the
    word match is null and reading its length throws a TypeError, not a
    CouldNotConvertError. *)
Theorem byweekday_null_dereference (s : jsstring) :
  Forall (fun c => isWord c = false) (toLowerCase s) →
  convertUserByWeekdayToRRuleConstant s = Throw TypeError.
Proof.
  intros Hs. unfold convertUserByWeekdayToRRuleConstant.
  by rewrite match_word_null; [|apply trim_Forall].
Qed.

Lemma byweekday_null_dereference_witness :
  Forall (fun c => isWord c = false) (toLowerCase (js "??"))
  ∧ convertUserByWeekdayToRRuleConstant (js "??") = Throw TypeError.
Proof.
  assert (H : Forall (fun c => isWord c = false) (toLowerCase (js "??"))).
  { vm_compute. repeat constructor. }
  split; [exact H | exact (byweekday_null_dereference (js "??") H)].
Defined.

Example byweekday_empty_string :
  convertUserByWeekdayToRRuleConstant (js "") = Throw TypeError
  ∧ convertUserByWeekdayToRRuleConstant (js "   ") = Throw TypeError.
Proof. split; by vm_compute. Qed.

(** ** deleteUndefinedProps *)

Lemma typeof_undefined v : typeof v = js "undefined" ↔ v = VUndefined.
Proof. split; [|by intros ->]. by destruct v. Qed.

Lemma forEach_deleteStep (o : loc) (ks : list jsstring) (h : heap) (obj : object) :
  h !! o = Some obj →
  forEach ks (fun key =>
    v ← get o key;
    if bool_decide (typeof v = js "undefined") then delete_property o key
    else mret ()) h
  = (Return (), <[o := foldl deleteStep obj ks]> h).
Proof.
  revert h obj. induction ks as [|k ks IH]; intros h obj Ho; simpl.
  - unfold mret, M_ret. by rewrite insert_id.
  - unfold mbind at 1, M_bind at 1. unfold mbind at 1, M_bind at 1.
    unfold get at 1. rewrite Ho. unfold deleteStep at 2.
    case_bool_decide as Hk.
    + unfold delete_property. rewrite Ho.
      rewrite (IH _ (delete k obj)); [|by rewrite lookup_insert_eq].
      by rewrite insert_insert_eq.
    + unfold mret at 1, M_ret at 1. by apply IH.
Qed.

Lemma deleteStep_sub obj key k v :
  deleteStep obj key !! k = Some v → obj !! k = Some v.
Proof.
  unfold deleteStep. case_bool_decide; [|done].
  destruct (decide (k = key)) as [->|Hne].
  - by rewrite lookup_delete_eq.
  - by rewrite lookup_delete_ne.
Qed.

Lemma deleteStep_kept obj key k v :
  obj !! k = Some v → v ≠ VUndefined → deleteStep obj key !! k = Some v.
Proof.
  intros Hk Hv. unfold deleteStep. case_bool_decide as Ht; [|done].
  apply typeof_undefined in Ht.
  destruct (decide (k = key)) as [->|Hne].
  - rewrite Hk in Ht. simpl in Ht. by destruct Hv.
  - by rewrite lookup_delete_ne.
Qed.

Lemma deleteStep_removed obj key : deleteStep obj key !! key ≠ Some VUndefined.
Proof.
  unfold deleteStep. case_bool_decide as Ht.
  - by rewrite lookup_delete_eq.
  - intros Hk. rewrite Hk in Ht. by destruct Ht.
Qed.

Lemma foldl_deleteStep_kept ks obj k v :
  obj !! k = Some v → v ≠ VUndefined → foldl deleteStep obj ks !! k = Some v.
Proof.
  revert obj. induction ks as [|key ks IH]; intros obj Hk Hv; simpl; [done|].
  apply IH; [|done]. by apply deleteStep_kept.
Qed.

Lemma foldl_deleteStep_sub ks obj k v :
  foldl deleteStep obj ks !! k = Some v → obj !! k = Some v.
Proof.
  revert obj. induction ks as [|key ks IH]; intros obj; simpl; [done|].
  intros H. by apply IH, deleteStep_sub in H.
Qed.

Lemma foldl_deleteStep_removed ks obj k :
  k ∈ ks → foldl deleteStep obj ks !! k ≠ Some VUndefined.
Proof.
  revert obj. induction ks as [|key ks IH]; intros obj Hin; [by apply elem_of_nil in Hin|].
  simpl. destruct (decide (k = key)) as [->|Hne].
  - intros H. apply foldl_deleteStep_sub in H. by apply deleteStep_removed in H.
  - apply IH. by apply elem_of_cons in Hin as [?|?].
Qed.

(** The run of deleteUndefinedProps on an allocated object. *)
Lemma deleteUndefinedProps_run (h : heap) (o : loc) (obj : object) :
  h !! o = Some obj →
  ∃ obj' : object,
    deleteUndefinedProps o h = (Return o, <[o := obj']> h)
    ∧ (∀ k, obj' !! k ≠ Some VUndefined)
    ∧ (∀ k v, obj !! k = Some v → v ≠ VUndefined → obj' !! k = Some v)
    ∧ (∀ k v, obj' !! k = Some v → obj !! k = Some v).
Proof.
  intros Ho. exists (foldl deleteStep obj (map_to_list obj).*1).
  split; [|split; [|split]].
  - unfold deleteUndefinedProps.
    unfold mbind at 1, M_bind at 1. unfold Object_keys. rewrite Ho.
    unfold mbind at 1, M_bind at 1.
    by rewrite (forEach_deleteStep o _ h obj Ho).
  - intros k Hk. pose proof (foldl_deleteStep_sub _ _ _ _ Hk) as Hobj.
    revert Hk. apply foldl_deleteStep_removed.
    apply list_elem_of_fmap. exists (k, VUndefined). split; [done|].
    by apply elem_of_map_to_list.
  - intros k v. apply foldl_deleteStep_kept.
  - intros k v. apply foldl_deleteStep_sub.
Qed.

(** C9: on a plain object, deleteUndefinedProps returns the reference it
    was given, the object behind that reference is updated in place and no
    other object changes; afterwards no property is undefined, every
    property that was defined is still there with its value, and nothing
    else is there. *)
Theorem deleteUndefinedProps_spec (h : heap) (o : loc) (obj : object) :
  h !! o = Some obj →
  ∃ obj' : object,
    deleteUndefinedProps o h = (Return o, <[o := obj']> h)
    ∧ (∀ k, obj' !! k ≠ Some VUndefined)
    ∧ (∀ k v, obj !! k = Some v → v ≠ VUndefined → obj' !! k = Some v)
    ∧ (∀ k v, obj' !! k = Some v → obj !! k = Some v).
Proof. apply deleteUndefinedProps_run. Qed.

Lemma deleteUndefinedProps_spec_witness :
  ({[ 1%positive := sampleObject ]} : heap) !! 1%positive = Some sampleObject
  ∧ ∃ obj' : object,
      deleteUndefinedProps 1%positive {[ 1%positive := sampleObject ]}
      = (Return 1%positive, <[1%positive := obj']> {[ 1%positive := sampleObject ]})
      ∧ (∀ k, obj' !! k ≠ Some VUndefined)
      ∧ (∀ k v, sampleObject !! k = Some v → v ≠ VUndefined → obj' !! k = Some v)
      ∧ (∀ k v, obj' !! k = Some v → sampleObject !! k = Some v).
Proof.
  assert (H : ({[ 1%positive := sampleObject ]} : heap) !! 1%positive = Some sampleObject)
    by apply lookup_singleton_eq.
  split; [exact H | exact (deleteUndefinedProps_spec _ _ _ H)].
Defined.

Example deleteUndefinedProps_sample :
  deleteUndefinedProps 1%positive {[ 1%positive := sampleObject ]}
  = (Return 1%positive, {[ 1%positive := {[ js "interval" := VNumber 2 ]} ]}).
Proof. by vm_compute. Qed.

(** ** The occurrence queries *)

Section Queries.

Context `{Engine} (now : Z).

Lemma Qltb_cap (limit : Q) (i : nat) :
  Qltb (inject_Z (Z.of_nat i)) (Qmin limit MAX_CONSUMED_RECURRENCES) = true →
  (i < 1000)%nat.
Proof.
  unfold Qltb, MAX_CONSUMED_RECURRENCES. intros Hlt.
  apply negb_true_iff in Hlt.
  destruct (Qlt_le_dec (inject_Z (Z.of_nat i)) (Qmin limit 1000)) as [Hi|Hi].
  - assert (Hq : (inject_Z (Z.of_nat i) < inject_Z 1000)%Q).
    { eapply Qlt_le_trans; [exact Hi|]. apply Q.le_min_r. }
    rewrite <- Zlt_Qlt in Hq. lia.
  - apply Qle_bool_iff in Hi. congruence.
Qed.

(** The stop predicate [i < limit] keeps the result within any bound that
    the accepted indices stay below. *)
Lemma collect_bounded (it : Z → nat → bool) (bound : nat) (ds acc : list Z) :
  (∀ d i, it d i = true → (i < bound)%nat) →
  (length acc ≤ bound)%nat →
  (length (collect it ds acc) ≤ bound)%nat.
Proof.
  intros Hit. revert acc. induction ds as [|d ds IH]; intros acc Hacc; simpl; [done|].
  destruct (it d (length acc)) eqn:Hd; [|done].
  apply IH. rewrite length_app. simpl. apply Hit in Hd. lia.
Qed.

Lemma collect_capped (limit : Q) (ds : list Z) :
  (length (collect (limitingIterator (Qmin limit MAX_CONSUMED_RECURRENCES)) ds []) ≤ 1000)%nat.
Proof.
  apply collect_bounded; [|simpl; lia].
  intros d i. apply Qltb_cap.
Qed.

(** The cap holds for All and Between, whatever the rule and the limit. *)
Lemma All_capped (rrule : jsstring) (limit : option Q) (l : list jsstring) :
  All now rrule limit = Return l → (length l ≤ 1000)%nat.
Proof.
  unfold All. destruct (unescapeControlCodes rrule) as [u|e]; [|done]. simpl.
  destruct (parseRule now u) as [rule|e]; [|done]. simpl.
  intros [= <-]. rewrite length_fmap. apply collect_capped.
Qed.

Lemma Between_capped (rrule : jsstring) (a b : Z) (limit : option Q) (inc : option bool)
    (l : list jsstring) :
  Between now rrule a b limit inc = Return l → (length l ≤ 1000)%nat.
Proof.
  unfold Between. destruct (unescapeControlCodes rrule) as [u|e]; [|done]. simpl.
  destruct (parseRule now u) as [rule|e]; [|done]. simpl.
  intros [= <-]. rewrite length_fmap. apply collect_capped.
Qed.

Lemma filter_none (p : Z → bool) (l : list Z) :
  (∀ t, t ∈ l → p t = false) → List.filter p l = [].
Proof.
  induction l as [|t l IH]; intros Hl; simpl; [done|].
  rewrite (Hl t) by apply list_elem_of_here.
  apply IH. intros t' Ht'. apply Hl. by apply list_elem_of_further.
Qed.

(** C6: on a valid rule string no occurrence query throws; Between gives
    the empty list when no occurrence lies in the range, and First, After
    and Before give the blank result when no occurrence qualifies. *)
Theorem queries_report_absence (rrule : jsstring) (u : option json) (rule : RRule) :
  unescapeControlCodes rrule = Return u →
  rrulestr now u = inr rule →
  (∀ limit, ∃ l, All now rrule limit = Return l)
  ∧ (∀ a b limit inc, ∃ l, Between now rrule a b limit inc = Return l)
  ∧ (∃ r, First now rrule = Return r)
  ∧ (∀ d inc, ∃ r, After now rrule d inc = Return r)
  ∧ (∀ d inc, ∃ r, Before now rrule d inc = Return r)
  ∧ (∀ a b limit inc,
       (∀ t, t ∈ occurrences rule → inRange a b (default false inc) t = false) →
       Between now rrule a b limit inc = Return [])
  ∧ (occurrences rule = [] →
       First now rrule = Return BLANK ∧ ∀ limit, All now rrule limit = Return [])
  ∧ (∀ d inc,
       (∀ t, t ∈ occurrences rule →
          (if default false inc then (d <=? t)%Z else (d <? t)%Z) = false) →
       After now rrule d inc = Return BLANK)
  ∧ (∀ d inc,
       (∀ t, t ∈ occurrences rule →
          (if default false inc then (t <=? d)%Z else (t <? d)%Z) = false) →
       Before now rrule d inc = Return BLANK).
Proof.
  intros Hu Hrule.
  assert (Hparse : parseRule now u = Return rule) by (unfold parseRule; by rewrite Hrule).
  unfold All, Between, First, After, Before. rewrite Hu. simpl. rewrite Hparse. simpl.
  split_and!.
  - intros limit. by eexists.
  - intros a b limit inc. by eexists.
  - destruct (occurrences rule) as [|d ds]; simpl; by eexists.
  - intros d inc. destruct (after rule d (default false inc)); by eexists.
  - intros d inc. destruct (before rule d (default false inc)); by eexists.
  - intros a b limit inc Hnone. unfold between. by rewrite filter_none.
  - intros Hocc. unfold all. by rewrite Hocc.
  - intros d inc Hnone. unfold after. by rewrite filter_none.
  - intros d inc Hnone. unfold before. by rewrite filter_none.
Qed.

End Queries.

Lemma queries_report_absence_witness :
  let E := DailyEngine.dailyEngine in
  let rrule := js "RRULE:FREQ=DAILY;COUNT=0" in
  unescapeControlCodes rrule = Return (Some (JString rrule))
  ∧ @rrulestr E DailyEngine.NOW (Some (JString rrule))
    = inr (DailyEngine.dailyRule DailyEngine.NOW 0)
  ∧ @First E DailyEngine.NOW rrule = Return BLANK
  ∧ @Between E DailyEngine.NOW rrule 0 1 None None = Return [].
Proof.
  intros E rrule.
  assert (Hu : unescapeControlCodes rrule = Return (Some (JString rrule)))
    by (vm_compute; reflexivity).
  assert (Hr : @rrulestr E DailyEngine.NOW (Some (JString rrule))
               = inr (DailyEngine.dailyRule DailyEngine.NOW 0))
    by (vm_compute; reflexivity).
  destruct (@queries_report_absence E DailyEngine.NOW rrule _ _ Hu Hr)
    as (_ & _ & _ & _ & _ & Hbetween & Hfirst & _).
  split_and!; [exact Hu | exact Hr | |].
  - apply Hfirst. by vm_compute.
  - apply Hbetween. intros t Ht. by apply elem_of_nil in Ht.
Defined.

(** C3 fails on the code at First: the formula calls [rule.all()] without a
    stop predicate, so a rule with 1001 occurrences is materialized whole
    (and twice), while All on the same rule stops at 1000. *)
Theorem First_materializes_whole_sequence :
  let E := DailyEngine.dailyEngine in
  let rrule := js "RRULE:FREQ=DAILY;COUNT=1001" in
  unescapeControlCodes rrule = Return (Some (JString rrule))
  ∧ @parseRule E DailyEngine.NOW (Some (JString rrule))
    = Return (DailyEngine.dailyRule DailyEngine.NOW 1001)
  ∧ length (@all E (DailyEngine.dailyRule DailyEngine.NOW 1001) None) = 1001%nat
  ∧ @First E DailyEngine.NOW rrule = Return (js "2024-01-02T00:00:00.000Z")
  ∧ length <$> @All E DailyEngine.NOW rrule (Some (5000 : Q)) = Return 1000%nat.
Proof. split_and!; vm_compute; reflexivity. Qed.

(** ** ModifyRRule *)

Lemma bind_Return {A B} (m : M A) (f : A → M B) (h h' : heap) (a : A) :
  m h = (Return a, h') → (m ≫= f) h = f a h'.
Proof. intros Hm. unfold mbind, M_bind. by rewrite Hm. Qed.

Lemma tryCatch_Return {A} (m : M A) (handler : exn → M A) (h h' : heap) (a : A) :
  m h = (Return a, h') → tryCatch m handler h = (Return a, h').
Proof. intros Hm. unfold tryCatch. by rewrite Hm. Qed.



Section Modify.

Context `{Engine} (now later : Z).

(** When every conversion succeeds, [buildOptions] allocates the literal at
    a fresh reference and strips its undefined properties in place. *)
Lemma buildOptions_run (freq : result value) (p : RuleParams) (literal : object) (h : heap) :
  optionsLiteral freq p = Return literal →
  ∃ stripped : object,
    buildOptions freq p h = (Return (fresh (dom h)), <[fresh (dom h) := stripped]> h)
    ∧ (∀ k, stripped !! k ≠ Some VUndefined)
    ∧ (∀ k v, literal !! k = Some v → v ≠ VUndefined → stripped !! k = Some v)
    ∧ (∀ k v, stripped !! k = Some v → literal !! k = Some v).
Proof.
  intros Hlit. set (o := fresh (dom h)).
  destruct (deleteUndefinedProps_run (<[o := literal]> h) o literal)
    as (stripped & Hrun & Hundef & Hkept & Hsub); [by rewrite lookup_insert_eq|].
  exists stripped. split_and!; [|done..].
  unfold buildOptions. apply tryCatch_Return.
  rewrite (bind_Return _ _ h h literal); [|unfold liftR; by rewrite Hlit].
  rewrite (bind_Return _ _ h (<[o := literal]> h) o); [|done].
  rewrite Hrun. by rewrite insert_insert_eq.
Qed.








(** What the caller of CreateRRule sees when the frequency is rejected: a
    UserVisibleError with the converter's message, which is empty. *)
Lemma CreateRRule_reports_empty_message (frequency : jsstring) (p : RuleParams)
    (h : heap) (e : exn) :
  convertFrequencyStringToRRuleConstant frequency = Throw e →
  CreateRRule now frequency p h = (Throw (UserVisibleError []), h).
Proof.
  intros He. pose proof (convertFrequencyString_throws _ _ He) as ->.
  unfold CreateRRule, CreateRRule_options, buildOptions.
  unfold mbind at 1, M_bind at 1. unfold tryCatch.
  unfold mbind at 1, M_bind at 1. unfold liftR at 1, optionsLiteral. by rewrite He.
Qed.

End Modify.


Example ModifyRRule_sample :
  (@ModifyRRule DailyEngine.dailyEngine DailyEngine.NOW DailyEngine.NEXT_DAY
     (js "RRULE:FREQ=DAILY;COUNT=3") None (countParams 5) ∅).1
  = Return (js "RRULE:FREQ=DAILY;COUNT=5").
Proof. by vm_compute. Qed.

(** ** The anchor of a rule without dtstart *)




(** ** Escaping and unescaping *)

Lemma quoteBody_pair c d r :
  startsPair (c :: d :: r) = true → quoteBody (c :: d :: r) = c :: d :: quoteBody r.
Proof. simpl. intros [Hc Hd]%andb_true_iff. by rewrite Hc, Hd. Qed.

Lemma quoteBody_single c r :
  startsPair (c :: r) = false → quoteBody (c :: r) = quoteUnit c ++ quoteBody r.
Proof.
  simpl. destruct (isLeadSurrogate c); [|done].
  destruct r as [|d r]; [by rewrite app_nil_r|]. simpl. by intros ->.
Qed.

(** Induction along the way [quoteBody] reads its argument. *)
Lemma quoteBody_ind (P : jsstring → Prop) :
  P [] →
  (∀ c d r, startsPair (c :: d :: r) = true → P r → P (c :: d :: r)) →
  (∀ c r, startsPair (c :: r) = false → P r → P (c :: r)) →
  ∀ s, P s.
Proof.
  intros Hnil Hpair Hsingle s.
  assert (Hn : ∀ m (s : jsstring), (length s ≤ m)%nat → P s).
  { clear s. induction m as [|m IH]; intros s Hlen.
    - destruct s; [done | simpl in Hlen; lia].
    - destruct s as [|c r]; [done|].
      destruct (startsPair (c :: r)) eqn:Hp.
      + destruct r as [|d r]; [done|]. apply Hpair; [done|].
        apply IH. simpl in Hlen. lia.
      + apply Hsingle; [done|]. apply IH. simpl in Hlen. lia. }
  by apply (Hn (length s)).
Qed.

Lemma hexValue_hexDigit d : d < 16 → hexValue (hexDigit d) = Some d.
Proof.
  intros Hd.
  assert (Hcases : d = 0 ∨ d = 1 ∨ d = 2 ∨ d = 3 ∨ d = 4 ∨ d = 5 ∨ d = 6 ∨ d = 7
                   ∨ d = 8 ∨ d = 9 ∨ d = 10 ∨ d = 11 ∨ d = 12 ∨ d = 13 ∨ d = 14 ∨ d = 15)
    by lia.
  repeat (destruct Hcases as [->|Hcases]; [reflexivity|]). by subst d.
Qed.

Lemma hex4_value c :
  c < 65536 →
  (c / 4096 mod 16) * 4096 + (c / 256 mod 16) * 256 + (c / 16 mod 16) * 16 + c mod 16 = c.
Proof.
  intros Hc.
  assert (H1 : c / 4096 mod 16 = c / 4096).
  { apply N.mod_small. apply N.Div0.div_lt_upper_bound. lia. }
  assert (H2 : c / 256 = 16 * (c / 4096) + c / 256 mod 16).
  { replace (c / 4096) with (c / 256 / 16) by (rewrite N.Div0.div_div; reflexivity).
    apply N.div_mod. lia. }
  assert (H3 : c / 16 = 16 * (c / 256) + c / 16 mod 16).
  { replace (c / 256) with (c / 16 / 16) by (rewrite N.Div0.div_div; reflexivity).
    apply N.div_mod. lia. }
  assert (H4 : c = 16 * (c / 16) + c mod 16) by (apply N.div_mod; lia).
  lia.
Qed.

Lemma parseStringBody_unicode h1 h2 h3 h4 X :
  parseStringBody (BACKSLASH :: 0x75 :: h1 :: h2 :: h3 :: h4 :: X)
  = (a ← hexValue h1; b ← hexValue h2; c ← hexValue h3; d ← hexValue h4;
     '(str, rest) ← parseStringBody X;
     Some (a * 4096 + b * 256 + c * 16 + d :: str, rest)).
Proof. reflexivity. Qed.

Lemma parseStringBody_unicodeEscape c X str rest :
  c < 65536 →
  parseStringBody X = Some (str, rest) →
  parseStringBody (unicodeEscape c ++ X) = Some (c :: str, rest).
Proof.
  intros Hc HX. unfold unicodeEscape, hex4.
  change ((BACKSLASH :: 0x75 :: [?h1; ?h2; ?h3; ?h4]) ++ X)
    with (BACKSLASH :: 0x75 :: h1 :: h2 :: h3 :: h4 :: X).
  rewrite parseStringBody_unicode.
  rewrite !hexValue_hexDigit by (apply N.mod_lt; lia).
  simpl. rewrite HX. simpl. by rewrite hex4_value.
Qed.

Lemma parseStringBody_raw c X str rest :
  c ≠ QUOTE → c ≠ BACKSLASH → 0x20 ≤ c →
  parseStringBody X = Some (str, rest) →
  parseStringBody (c :: X) = Some (c :: str, rest).
Proof.
  intros Hq Hb Hc HX. simpl.
  apply N.eqb_neq in Hq, Hb. rewrite Hq, Hb.
  apply N.ltb_ge in Hc. rewrite Hc, HX. done.
Qed.

Lemma surrogate_bounds c :
  isLeadSurrogate c || isTrailSurrogate c = true → 0xD800 ≤ c ∧ c < 65536.
Proof.
  unfold isLeadSurrogate, isTrailSurrogate, between.
  intros [H|H]%orb_true_iff; apply andb_true_iff in H as [?%N.leb_le ?%N.leb_le]; lia.
Qed.

(** The escape of one code unit reads back as that code unit. *)
Lemma parseStringBody_quoteUnit c X str rest :
  parseStringBody X = Some (str, rest) →
  parseStringBody (quoteUnit c ++ X) = Some (c :: str, rest).
Proof.
  intros HX. unfold quoteUnit.
  repeat (match goal with
          | |- context [if ?c =? ?k then _ else _] =>
              destruct (N.eqb_spec c k) as [->|?]; [simpl; by rewrite HX|]
          end).
  destruct ((c <? 32) || isLeadSurrogate c || isTrailSurrogate c) eqn:Hesc.
  - apply parseStringBody_unicodeEscape; [|done].
    rewrite <- orb_assoc in Hesc. apply orb_true_iff in Hesc as [Hlt|Hs].
    + apply N.ltb_lt in Hlt. lia.
    + by apply surrogate_bounds in Hs as [_ ?].
  - apply orb_false_iff in Hesc as [[Hlt _]%orb_false_iff _].
    apply N.ltb_ge in Hlt. by apply parseStringBody_raw.
Qed.

(** [JSON.parse] reads a quoted body back to the string it was made from. *)
Lemma parseStringBody_quoteBody s rest :
  parseStringBody (quoteBody s ++ QUOTE :: rest) = Some (s, rest).
Proof.
  induction s as [|c d r Hp IH|c r Hp IH] using quoteBody_ind.
  - reflexivity.
  - rewrite quoteBody_pair by done.
    simpl in Hp. apply andb_true_iff in Hp as [Hc Hd].
    assert (Hcb : 0xD800 ≤ c ∧ c < 65536) by (apply surrogate_bounds; by rewrite Hc).
    assert (Hdb : 0xD800 ≤ d ∧ d < 65536) by (apply surrogate_bounds; by rewrite Hd, orb_true_r).
    unfold QUOTE, BACKSLASH in *.
    change ((c :: d :: quoteBody r) ++ 34 :: rest) with (c :: d :: quoteBody r ++ 34 :: rest).
    apply parseStringBody_raw; unfold QUOTE, BACKSLASH; [lia..|].
    apply parseStringBody_raw; unfold QUOTE, BACKSLASH; [lia..|]. exact IH.
  - rewrite quoteBody_single by done. rewrite <- app_assoc.
    by apply parseStringBody_quoteUnit.
Qed.

Lemma stripPrefix_app p s : stripPrefix p (p ++ s) = Some s.
Proof. induction p as [|a p IH]; simpl; [done|]. by rewrite N.eqb_refl. Qed.

Lemma stripSuffix_app p s : stripSuffix p (s ++ p) = Some s.
Proof.
  unfold stripSuffix. rewrite rev_app_distr, stripPrefix_app. simpl.
  by rewrite rev_involutive.
Qed.

Lemma hexDigit_not_line_terminator d :
  d < 16 → isLineTerminator (hexDigit d) = false.
Proof.
  intros Hd.
  assert (Hcases : d = 0 ∨ d = 1 ∨ d = 2 ∨ d = 3 ∨ d = 4 ∨ d = 5 ∨ d = 6 ∨ d = 7
                   ∨ d = 8 ∨ d = 9 ∨ d = 10 ∨ d = 11 ∨ d = 12 ∨ d = 13 ∨ d = 14 ∨ d = 15)
    by lia.
  repeat (destruct Hcases as [->|Hcases]; [reflexivity|]). by subst d.
Qed.

Lemma isLineTerminator_false c :
  c ≠ 0x0A → c ≠ 0x0D → notLineSeparator c → isLineTerminator c = false.
Proof.
  intros H1 H2 [H3 H4]. unfold isLineTerminator.
  apply N.eqb_neq in H1, H2, H3, H4. by rewrite H1, H2, H3, H4.
Qed.

Lemma quoteUnit_no_line_terminator c :
  notLineSeparator c →
  forallb (fun c => negb (isLineTerminator c)) (quoteUnit c) = true.
Proof.
  intros Hc. unfold quoteUnit.
  repeat (match goal with
          | |- context [if ?c =? ?k then _ else _] =>
              destruct (N.eqb_spec c k) as [->|?]; [reflexivity|]
          end).
  destruct ((c <? 32) || isLeadSurrogate c || isTrailSurrogate c).
  - unfold unicodeEscape, hex4. simpl.
    by rewrite !hexDigit_not_line_terminator by (apply N.mod_lt; lia).
  - simpl. by rewrite isLineTerminator_false.
Qed.

Lemma quoteBody_no_line_terminator s :
  Forall notLineSeparator s →
  forallb (fun c => negb (isLineTerminator c)) (quoteBody s) = true.
Proof.
  induction s as [|c d r Hp IH|c r Hp IH] using quoteBody_ind; intros Hs.
  - reflexivity.
  - rewrite quoteBody_pair by done.
    apply Forall_cons in Hs as [Hc [Hd Hr]%Forall_cons].
    simpl in Hp. apply andb_true_iff in Hp as [Hlc Htd].
    assert (Hcb : 0xD800 ≤ c ∧ c < 65536) by (apply surrogate_bounds; by rewrite Hlc).
    assert (Hdb : 0xD800 ≤ d ∧ d < 65536) by (apply surrogate_bounds; by rewrite Htd, orb_true_r).
    simpl. rewrite !isLineTerminator_false by (done || lia). by apply IH.
  - rewrite quoteBody_single by done.
    apply Forall_cons in Hs as [Hc Hr].
    rewrite forallb_app, quoteUnit_no_line_terminator by done. by apply IH.
Qed.

Lemma stringify_s_eq s :
  stringify_s s
  = (js "{" ++ [QUOTE] ++ js "s" ++ [QUOTE] ++ js ":")
    ++ QUOTE :: quoteBody s ++ QUOTE :: js "}".
Proof.
  unfold stringify_s, quoteJSONString.
  change ((QUOTE :: quoteBody s ++ [QUOTE]) ++ js "}")
    with (QUOTE :: ((quoteBody s ++ [QUOTE]) ++ js "}")).
  by rewrite <- (app_assoc (quoteBody s)).
Qed.

Lemma match_s_stringify s :
  forallb (fun c => negb (isLineTerminator c)) (quoteBody s) = true →
  match_s (stringify_s s) = Some (quoteBody s).
Proof.
  intros Hs. unfold match_s. rewrite stringify_s_eq, stripPrefix_app. simpl.
  rewrite stripSuffix_app. simpl. by rewrite Hs.
Qed.

Lemma match_s_stringify_null s :
  forallb (fun c => negb (isLineTerminator c)) (quoteBody s) = false →
  match_s (stringify_s s) = None.
Proof.
  intros Hs. unfold match_s. rewrite stringify_s_eq, stripPrefix_app. simpl.
  rewrite stripSuffix_app. simpl. by rewrite Hs.
Qed.

(** Where no line separator occurs, escaping succeeds and gives the quoted
    body of the string. *)
Lemma escapeControlCodes_quoteBody s :
  Forall notLineSeparator s → escapeControlCodes s = Return (quoteBody s).
Proof.
  intros Hs. unfold escapeControlCodes.
  by rewrite match_s_stringify by by apply quoteBody_no_line_terminator.
Qed.

Lemma quoteBody_line_terminator s :
  Exists (fun c => c = 0x2028 ∨ c = 0x2029) s →
  forallb (fun c => negb (isLineTerminator c)) (quoteBody s) = false.
Proof.
  induction s as [|c d r Hp IH|c r Hp IH] using quoteBody_ind; intros Hs.
  - by apply Exists_nil in Hs.
  - rewrite quoteBody_pair by done. simpl in Hp. apply andb_true_iff in Hp as [Hlc Htd].
    assert (Hcb : 0xD800 ≤ c ∧ c < 65536) by (apply surrogate_bounds; by rewrite Hlc).
    assert (Hdb : 0xD800 ≤ d ∧ d < 65536) by (apply surrogate_bounds; by rewrite Htd, orb_true_r).
    apply Exists_cons in Hs as [Hs|Hs]; [lia|].
    apply Exists_cons in Hs as [Hs|Hs]; [lia|].
    simpl. rewrite (IH Hs). by rewrite !andb_false_r.
  - rewrite quoteBody_single by done. rewrite forallb_app.
    apply Exists_cons in Hs as [Hs|Hs].
    + by destruct Hs as [-> | ->].
    + rewrite (IH Hs). by rewrite andb_false_r.
Qed.

(** Where a line separator occurs, the expression of escapeControlCodes does
    not match and reading the groups of the null match throws. *)
Lemma escapeControlCodes_throws s :
  Exists (fun c => c = 0x2028 ∨ c = 0x2029) s → escapeControlCodes s = Throw TypeError.
Proof.
  intros Hs. unfold escapeControlCodes.
  by rewrite match_s_stringify_null by by apply quoteBody_line_terminator.
Qed.

Lemma parseValue_template fuel body str :
  parseStringBody body = Some (str, [0x7D]) →
  parseValue (S (S fuel)) (TEMPLATE_HEAD ++ body)
  = Some (JObject [(js "s", JString str)], []).
Proof.
  intros Hbody. unfold TEMPLATE_HEAD. simpl. by rewrite Hbody.
Qed.

(** Unescaping the quoted body of a string gives the string back, for every
    string. *)
Lemma unescapeControlCodes_quoteBody s :
  unescapeControlCodes (quoteBody s) = Return (Some (JString s)).
Proof.
  unfold unescapeControlCodes, JSON_parse.
  change (js "{" ++ [QUOTE] ++ js "s" ++ [QUOTE] ++ js ": " ++ [QUOTE]
          ++ quoteBody s ++ [QUOTE] ++ js "}")
    with (TEMPLATE_HEAD ++ quoteBody s ++ QUOTE :: [0x7D]).
  change (length (TEMPLATE_HEAD ++ quoteBody s ++ QUOTE :: [0x7D]))
    with (S (S (5 + length (quoteBody s ++ QUOTE :: [0x7D])))).
  rewrite (parseValue_template _ _ s) by apply parseStringBody_quoteBody.
  reflexivity.
Qed.

(** The round trip holds for every string free of U+2028 and U+2029. *)
Lemma escape_unescape_roundtrip s :
  Forall notLineSeparator s →
  escapeControlCodes s ≫= unescapeControlCodes = Return (Some (JString s)).
Proof.
  intros Hs. rewrite escapeControlCodes_quoteBody by done.
  apply unescapeControlCodes_quoteBody.
Qed.

(** C8 fails on the code at the line separators: [JSON.stringify] leaves
    U+2028 and U+2029 as they are, [.] does not match them, the match is
    null and escapeControlCodes throws instead of returning. *)
Theorem escapeControlCodes_line_separator :
  escapeControlCodes [0x2028] = Throw TypeError
  ∧ escapeControlCodes (js "RRULE:FREQ=DAILY" ++ [0x2029]) = Throw TypeError
  ∧ stringify_s [0x2028] = [0x7B; 0x22; 0x73; 0x22; 0x3A; 0x22; 0x2028; 0x22; 0x7D]
  ∧ escapeControlCodes [0x2028] ≫= unescapeControlCodes ≠ Return (Some (JString [0x2028])).
Proof. split_and!; by vm_compute. Qed.

(** ** Case and white space *)

Ltac ranges :=
  unfold isWord, isDigit, isSign, isWhiteSpace, isLineTerminator, JS.between in *;
  repeat match goal with
         | H : _ && _ = true |- _ => apply andb_true_iff in H; destruct H
         | H : _ || _ = false |- _ => apply orb_false_iff in H; destruct H
         | H : _ || _ = true |- _ => apply orb_true_iff in H; destruct H
         | H : _ && _ = false |- _ => apply andb_false_iff in H; destruct H
         | H : negb _ = true |- _ => apply negb_true_iff in H
         | H : negb _ = false |- _ => apply negb_false_iff in H
         | H : (_ <=? _) = true |- _ => apply N.leb_le in H
         | H : (_ <=? _) = false |- _ => apply N.leb_gt in H
         | H : (_ =? _) = true |- _ => apply N.eqb_eq in H
         | H : (_ =? _) = false |- _ => apply N.eqb_neq in H
         end.

(** Decide a boolean range test from arithmetic facts in the context. *)
Ltac range_test :=
  match goal with
  | |- ?b = true => destruct b eqn:?; [reflexivity | exfalso; ranges; lia]
  | |- ?b = false => destruct b eqn:?; [exfalso; ranges; lia | reflexivity]
  end.

Lemma isWord_range c :
  isWord c = true → (0x30 ≤ c ∧ c ≤ 0x39) ∨ (0x41 ≤ c ∧ c ≤ 0x5A) ∨ (0x61 ≤ c ∧ c ≤ 0x7A) ∨ c = 0x5F.
Proof. intros Hc. ranges; lia. Qed.

Lemma word_not_white c : isWord c = true → isWhiteSpace c = false.
Proof. intros Hc%isWord_range. range_test. Qed.

Lemma lowerUnit_white c : isWhiteSpace c = true → lowerUnit c = [c].
Proof.
  intros Hc. unfold lowerUnit.
  repeat match goal with
         | |- context [if ?b then _ else _] => destruct b eqn:?
         end; try reflexivity; exfalso; ranges; lia.
Qed.

Lemma lowerUnit_not_white c :
  isWhiteSpace c = false → Forall (fun x => isWhiteSpace x = false) (lowerUnit c).
Proof.
  intros Hc. unfold lowerUnit.
  repeat match goal with
         | |- context [if ?b then _ else _] => destruct b eqn:?
         end; repeat constructor; try done; range_test.
Qed.

Lemma lowerUnit_word c :
  isWord c = true → ∃ c', lowerUnit c = [c'] ∧ isWord c' = true.
Proof.
  intros Hc%isWord_range. unfold lowerUnit.
  repeat match goal with
         | |- context [if ?b then _ else _] => destruct b eqn:?
         end; try (exfalso; ranges; lia); eexists; (split; [reflexivity|]); range_test.
Qed.

Lemma lowerUnit_digit c : isDigit c = true → lowerUnit c = [c].
Proof.
  intros Hc. unfold lowerUnit.
  repeat match goal with
         | |- context [if ?b then _ else _] => destruct b eqn:?
         end; try reflexivity; exfalso; ranges; lia.
Qed.

Lemma toLowerCase_app a b : toLowerCase (a ++ b) = toLowerCase a ++ toLowerCase b.
Proof. apply bind_app. Qed.

Lemma toLowerCase_cons c r : toLowerCase (c :: r) = lowerUnit c ++ toLowerCase r.
Proof. reflexivity. Qed.

Lemma toLowerCase_white s :
  Forall (fun c => isWhiteSpace c = true) s → toLowerCase s = s.
Proof.
  induction 1 as [|c r Hc Hr IH]; [done|].
  by rewrite toLowerCase_cons, lowerUnit_white, IH.
Qed.

Lemma toLowerCase_digits s :
  Forall (fun c => isDigit c = true) s → toLowerCase s = s.
Proof.
  induction 1 as [|c r Hc Hr IH]; [done|].
  by rewrite toLowerCase_cons, lowerUnit_digit, IH.
Qed.

Lemma toLowerCase_word s :
  Forall (fun c => isWord c = true) s →
  Forall (fun c => isWord c = true) (toLowerCase s) ∧ length (toLowerCase s) = length s.
Proof.
  induction 1 as [|c r Hc Hr [IH1 IH2]]; [done|].
  destruct (lowerUnit_word c Hc) as (c' & Hc' & Hw).
  rewrite toLowerCase_cons, Hc'. simpl. split; [by constructor | by rewrite IH2].
Qed.

Lemma dropWhile_app_all p a b :
  Forall (fun c => p c = true) a → dropWhile p (a ++ b) = dropWhile p b.
Proof. induction 1 as [|c r Hc Hr IH]; simpl; [done|]. by rewrite Hc. Qed.

Lemma dropWhile_app_stop p a b :
  dropWhile p a ≠ [] → dropWhile p (a ++ b) = dropWhile p a ++ b.
Proof.
  induction a as [|c r IH]; simpl; [done|].
  destruct (p c); [exact IH | done].
Qed.

Lemma dropWhile_nil p a : dropWhile p a = [] → Forall (fun c => p c = true) a.
Proof.
  induction a as [|c r IH]; simpl; [constructor|].
  destruct (p c) eqn:Hc; [|done]. intros Hr. constructor; [done | by apply IH].
Qed.

Lemma trimEnd_app_white y post :
  Forall (fun c => isWhiteSpace c = true) post → trimEnd (y ++ post) = trimEnd y.
Proof.
  intros Hpost. unfold trimEnd. rewrite rev_app_distr.
  rewrite dropWhile_app_all; [done|]. by apply Forall_rev.
Qed.

(** White space around a string does not survive [trim]. *)
Lemma trim_pad pre x post :
  Forall (fun c => isWhiteSpace c = true) pre →
  Forall (fun c => isWhiteSpace c = true) post →
  trim (pre ++ x ++ post) = trim x.
Proof.
  intros Hpre Hpost. unfold trim, trimStart.
  rewrite dropWhile_app_all by done.
  destruct (dropWhile isWhiteSpace x) as [|a r] eqn:Hx.
  - apply dropWhile_nil in Hx.
    rewrite dropWhile_app_all by done. by rewrite (dropWhile_all _ post).
  - rewrite dropWhile_app_stop by by rewrite Hx.
    rewrite Hx. by apply trimEnd_app_white.
Qed.

(** A string that neither starts nor ends with white space is its own trim. *)
Lemma trim_id a y b :
  isWhiteSpace a = false → isWhiteSpace b = false →
  trim (a :: y ++ [b]) = a :: y ++ [b].
Proof.
  intros Ha Hb. unfold trim, trimStart, trimEnd. simpl dropWhile at 2. rewrite Ha.
  change (a :: y ++ [b]) with ((a :: y) ++ [b]). rewrite rev_app_distr. simpl rev at 1.
  simpl. rewrite Hb. simpl. by rewrite rev_app_distr, rev_involutive.
Qed.

(** Case and surrounding white space do not matter to a converter that
    looks its argument up after lower-casing and trimming it. *)
Lemma normalize_pad pre s post :
  Forall (fun c => isWhiteSpace c = true) pre →
  Forall (fun c => isWhiteSpace c = true) post →
  trim (toLowerCase (pre ++ s ++ post)) = trim (toLowerCase s).
Proof.
  intros Hpre Hpost. rewrite !toLowerCase_app, (toLowerCase_white pre), (toLowerCase_white post) by done.
  by apply trim_pad.
Qed.

Lemma convertUserMonthString_pad pre s post :
  Forall (fun c => isWhiteSpace c = true) pre →
  Forall (fun c => isWhiteSpace c = true) post →
  convertUserMonthStringToRRuleConstant (pre ++ s ++ post)
  = convertUserMonthStringToRRuleConstant s.
Proof.
  intros Hpre Hpost. unfold convertUserMonthStringToRRuleConstant.
  by rewrite normalize_pad.
Qed.

(** Every full name and every ISO number is accepted in any of the usual
    casings, and so is every abbreviation but that of March. *)
Lemma months_accepted :
  Forall (fun '(code, name, abbr) =>
    convertUserMonthStringToRRuleConstant (js name) = Return code
    ∧ convertUserMonthStringToRRuleConstant (toUpperCase (js name)) = Return code
    ∧ convertUserMonthStringToRRuleConstant (toLowerCase (js name)) = Return code
    ∧ convertUserMonthStringToRRuleConstant (js (pretty code)) = Return code
    ∧ (code ≠ 3%Z →
       convertUserMonthStringToRRuleConstant (js abbr) = Return code
       ∧ convertUserMonthStringToRRuleConstant (toUpperCase (js abbr)) = Return code))
    MONTHS.
Proof.
  unfold MONTHS.
  repeat (apply Forall_cons; split; [split_and!|]); try apply Forall_nil;
    try (vm_compute; reflexivity);
    (intros Hne; first [by destruct Hne | split; vm_compute; reflexivity]).
Qed.

(** ** Every digit-prefixed weekday token is rejected *)

Lemma dropWhile_stop p s :
  Forall (fun c => p c = false) s → dropWhile p s = s.
Proof. destruct 1 as [|c r Hc Hr]; simpl; [done|]. by rewrite Hc. Qed.

Lemma takeWhile_all p s :
  Forall (fun c => p c = true) s → takeWhile p s = s.
Proof. induction 1 as [|c r Hc Hr IH]; simpl; [done|]. by rewrite Hc, IH. Qed.

Lemma trim_nonwhite s :
  Forall (fun c => isWhiteSpace c = false) s → trim s = s.
Proof.
  intros Hs. unfold trim, trimStart, trimEnd.
  rewrite (dropWhile_stop _ s) by done.
  rewrite dropWhile_stop by by apply Forall_rev.
  apply rev_involutive.
Qed.

(** A [switch] falls to its default when a test that holds of the scrutinee
    fails on every label. *)
Lemma switch_default {A} (f : jsstring → bool) x cases (default : A) :
  f x = true →
  Forall (fun c => Forall (fun l => f (js l) = false) c.1) cases →
  switch x cases default = default.
Proof.
  intros Hx. induction 1 as [|[labels body] rest Hl Hrest IH]; simpl; [done|].
  case_bool_decide as Hin; [|exact IH]. exfalso.
  apply list_elem_of_fmap in Hin as (l & -> & Hin).
  simpl in Hl. rewrite Forall_forall in Hl. specialize (Hl l Hin). congruence.
Qed.

Lemma digit_is_word c : isDigit c = true → isWord c = true.
Proof. intros Hc. unfold isWord. unfold isDigit in Hc. by rewrite Hc. Qed.

Lemma convertUserWeekdayString_digit_run ds w :
  ds ≠ [] → Forall (fun c => isDigit c = true) ds →
  w ≠ [] → Forall (fun c => isWord c = true) w →
  convertUserWeekdayStringToRRuleConstant (ds ++ w) = Throw (CouldNotConvertError []).
Proof.
  intros Hds Hdig Hw Hword.
  destruct (toLowerCase_word w Hword) as [Hword' Hlen].
  unfold convertUserWeekdayStringToRRuleConstant.
  rewrite toLowerCase_app, (toLowerCase_digits ds) by done.
  rewrite trim_nonwhite.
  - apply (switch_default digitThenMore).
    + destruct ds as [|d ds]; [done|]. apply Forall_cons in Hdig as [Hd _].
      destruct ds as [|d' ds]; simpl; [|done].
      destruct (toLowerCase w) as [|c r]; [|done].
      destruct w; [done | discriminate Hlen].
    + repeat constructor.
  - apply Forall_app. split.
    + eapply Forall_impl; [exact Hdig|]. intros c Hc. by apply word_not_white, digit_is_word.
    + eapply Forall_impl; [exact Hword'|]. intros c Hc. by apply word_not_white.
Qed.

(** Whatever the sign, the digits and the weekday token written after them
    without a space, the prefixed form is rejected: the word match is the
    digits together with the token, and no label of the weekday switch
    starts with a digit and goes on. *)
Lemma prefixed_token_rejected sign ds w :
  sign = [] ∨ sign = [0x2D] ∨ sign = [0x2B] →
  ds ≠ [] → Forall (fun c => isDigit c = true) ds →
  w ≠ [] → Forall (fun c => isWord c = true) w →
  convertUserByWeekdayToRRuleConstant (sign ++ ds ++ w) = Throw (CouldNotConvertError []).
Proof.
  intros Hsign Hds Hdig Hw Hword.
  destruct (toLowerCase_word w Hword) as [Hword' Hlen].
  assert (Hw' : toLowerCase w ≠ []) by (destruct w; [done|]; by destruct (toLowerCase _)).
  assert (Hlow : toLowerCase (sign ++ ds ++ w) = sign ++ ds ++ toLowerCase w).
  { rewrite !toLowerCase_app, (toLowerCase_digits ds) by done.
    by destruct Hsign as [-> | [-> | ->]]. }
  set (x := ds ++ toLowerCase w).
  assert (Hx : Forall (fun c => isWord c = true) x).
  { apply Forall_app. split; [|done].
    eapply Forall_impl; [exact Hdig|]. intros c. apply digit_is_word. }
  assert (Hhead : ∃ d r, x = d :: r ∧ isDigit d = true).
  { unfold x. destruct ds as [|d ds]; [done|]. apply Forall_cons in Hdig as [Hd _].
    by exists d, (ds ++ toLowerCase w). }
  assert (Htrim : trim (sign ++ x) = sign ++ x).
  { apply trim_nonwhite, Forall_app. split.
    - destruct Hsign as [-> | [-> | ->]]; by repeat constructor.
    - eapply Forall_impl; [exact Hx|]. intros c. apply word_not_white. }
  assert (Hword_match : match_word (sign ++ x) = Some [x]).
  { unfold match_word. rewrite dropWhile_app_all.
    - rewrite dropWhile_stop.
      + destruct Hhead as (d & r & Hxeq & Hd). rewrite <- (takeWhile_all isWord x) at 2 by done.
        by rewrite Hxeq.
      + eapply Forall_impl; [exact Hx|]. intros c Hc. simpl. by rewrite Hc.
    - destruct Hsign as [-> | [-> | ->]]; by repeat constructor. }
  assert (Hprefix : ∃ m, match_prefix (sign ++ x) = Some [m]).
  { destruct Hhead as (d & r & Hxeq & Hd). unfold match_prefix.
    assert (Hnot : isSign d = false) by range_test.
    destruct Hsign as [-> | [-> | ->]]; rewrite Hxeq; cbn [app];
      [rewrite Hnot | change (isSign 45) with true | change (isSign 43) with true];
      cbn [takeWhile]; rewrite Hd; by eexists. }
  unfold convertUserByWeekdayToRRuleConstant.
  rewrite Hlow. fold x. rewrite Htrim, Hword_match. simpl.
  destruct Hprefix as [m Hm]. unfold test_prefix. rewrite Hm. simpl.
  unfold x. by rewrite convertUserWeekdayString_digit_run.
Qed.

Example prefixed_friday_rejected (ds : jsstring) :
  ds ≠ [] → Forall (fun c => isDigit c = true) ds →
  convertUserByWeekdayToRRuleConstant ([0x2D] ++ ds ++ js "Friday")
  = Throw (CouldNotConvertError []).
Proof.
  intros Hds Hdig. apply prefixed_token_rejected; [by right; left | done | done | done |].
  by repeat constructor.
Qed.

(* ===================================================================== *)
(** * Further properties of the code *)
(* ===================================================================== *)

(** ** string.helpers.ts *)

(** What escapeControlCodes returns, when it returns, is the quoted body of
    its argument, and that body holds no line terminator. *)
Lemma escapeControlCodes_Return s r :
  escapeControlCodes s = Return r →
  r = quoteBody s
  ∧ forallb (fun c => negb (isLineTerminator c)) (quoteBody s) = true.
Proof.
  unfold escapeControlCodes.
  destruct (forallb (fun c => negb (isLineTerminator c)) (quoteBody s)) eqn:Hs.
  - rewrite match_s_stringify by done. by intros [= <-].
  - by rewrite match_s_stringify_null.
Qed.

Lemma hexDigit_printable d : d < 16 → 0x20 ≤ hexDigit d.
Proof. intros Hd. unfold hexDigit. destruct (d <? 10); lia. Qed.

Lemma quoteUnit_no_control c : Forall (fun x => 0x20 ≤ x) (quoteUnit c).
Proof.
  unfold quoteUnit.
  repeat (match goal with
          | |- context [if ?c =? ?k then _ else _] =>
              destruct (N.eqb_spec c k) as [->|?]; [repeat constructor; unfold BACKSLASH, QUOTE; lia|]
          end).
  destruct (c <? 32) eqn:Hlt; simpl.
  - unfold unicodeEscape, hex4.
    repeat constructor; unfold BACKSLASH; try lia; apply hexDigit_printable, N.mod_lt; lia.
  - apply N.ltb_ge in Hlt.
    destruct (isLeadSurrogate c || isTrailSurrogate c).
    + unfold unicodeEscape, hex4.
      repeat constructor; unfold BACKSLASH; try lia; apply hexDigit_printable, N.mod_lt; lia.
    + by repeat constructor.
Qed.

Lemma quoteBody_no_control s : Forall (fun x => 0x20 ≤ x) (quoteBody s).
Proof.
  induction s as [|c d r Hp IH|c r Hp IH] using quoteBody_ind.
  - constructor.
  - rewrite quoteBody_pair by done. simpl in Hp. apply andb_true_iff in Hp as [Hlc Htd].
    assert (Hcb : 0xD800 ≤ c ∧ c < 65536) by (apply surrogate_bounds; by rewrite Hlc).
    assert (Hdb : 0xD800 ≤ d ∧ d < 65536) by (apply surrogate_bounds; by rewrite Htd, orb_true_r).
    repeat constructor; [lia | lia | done].
  - rewrite quoteBody_single by done. apply Forall_app. split; [apply quoteUnit_no_control | done].
Qed.

(** X1: for every string that holds neither U+2028 nor U+2029, escaping
    succeeds and unescaping the escaped text gives the string back. *)
Theorem rule_string_round_trip (s : jsstring) :
  Forall notLineSeparator s →
  escapeControlCodes s ≫= unescapeControlCodes = Return (Some (JString s)).
Proof.
  intros Hs. rewrite escapeControlCodes_quoteBody by done.
  apply unescapeControlCodes_quoteBody.
Qed.

Lemma rule_string_round_trip_witness :
  Forall notLineSeparator (js "DTSTART:20240102T000000Z" ++ [0x0A] ++ js "RRULE:FREQ=DAILY")
  ∧ escapeControlCodes (js "DTSTART:20240102T000000Z" ++ [0x0A] ++ js "RRULE:FREQ=DAILY")
      ≫= unescapeControlCodes
    = Return (Some (JString (js "DTSTART:20240102T000000Z" ++ [0x0A] ++ js "RRULE:FREQ=DAILY"))).
Proof.
  assert (H : Forall notLineSeparator
                (js "DTSTART:20240102T000000Z" ++ [0x0A] ++ js "RRULE:FREQ=DAILY")).
  { apply (bool_decide_unpack _). vm_compute. exact I. }
  split; [exact H | exact (rule_string_round_trip _ H)].
Defined.

(** X2: whatever escapeControlCodes returns holds no control character
    (no code unit below U+0020) and no line terminator. *)
Theorem escaped_text_has_no_control_code (s r : jsstring) :
  escapeControlCodes s = Return r →
  Forall (fun c => 0x20 ≤ c ∧ isLineTerminator c = false) r.
Proof.
  intros [-> Hlt]%escapeControlCodes_Return.
  rewrite forallb_forall in Hlt. apply Forall_forall. intros c Hc. split.
  - pose proof (quoteBody_no_control s) as Hall. rewrite Forall_forall in Hall. by apply Hall.
  - apply negb_true_iff, Hlt. by apply list_elem_of_In.
Qed.

Lemma escaped_text_has_no_control_code_witness :
  escapeControlCodes (js "RRULE:FREQ=DAILY" ++ [0x0A; 0x09; 0x00])
  = Return (js "RRULE:FREQ=DAILY\n\t\u0000")
  ∧ Forall (fun c => 0x20 ≤ c ∧ isLineTerminator c = false) (js "RRULE:FREQ=DAILY\n\t\u0000").
Proof.
  assert (H : escapeControlCodes (js "RRULE:FREQ=DAILY" ++ [0x0A; 0x09; 0x00])
              = Return (js "RRULE:FREQ=DAILY\n\t\u0000")) by (vm_compute; reflexivity).
  split; [exact H | exact (escaped_text_has_no_control_code _ _ H)].
Defined.

Lemma parseStringBody_plain s rest :
  Forall plainUnit s → parseStringBody (s ++ QUOTE :: rest) = Some (s, rest).
Proof.
  induction 1 as [|c r (Hc & Hq & Hb) Hr IH]; [reflexivity|].
  change ((c :: r) ++ QUOTE :: rest) with (c :: r ++ QUOTE :: rest).
  by apply parseStringBody_raw.
Qed.

Lemma parseValue_template_None fuel body :
  parseStringBody body = None → parseValue (S (S fuel)) (TEMPLATE_HEAD ++ body) = None.
Proof. intros Hbody. unfold TEMPLATE_HEAD. simpl. by rewrite Hbody. Qed.

(** The text that unescapeControlCodes hands to [JSON.parse]. *)
Lemma unescape_template s :
  unescapeControlCodes s
  = JSON_parse (TEMPLATE_HEAD ++ s ++ [QUOTE; 0x7D]) ≫= fun v => getProperty v (js "s").
Proof. reflexivity. Qed.

Lemma JSON_parse_template body str :
  parseStringBody body = Some (str, [0x7D]) →
  JSON_parse (TEMPLATE_HEAD ++ body) = Return (JObject [(js "s", JString str)]).
Proof.
  intros Hbody. unfold JSON_parse.
  change (length (TEMPLATE_HEAD ++ body)) with (S (S (5 + length body))).
  by rewrite (parseValue_template _ _ str).
Qed.

Lemma JSON_parse_template_None body :
  parseStringBody body = None → JSON_parse (TEMPLATE_HEAD ++ body) = Throw SyntaxError.
Proof.
  intros Hbody. unfold JSON_parse.
  change (length (TEMPLATE_HEAD ++ body)) with (S (S (5 + length body))).
  by rewrite parseValue_template_None.
Qed.

(** X3: a string without control characters, quotes and backslashes is
    unescaped to itself. *)
Theorem unescapeControlCodes_plain (s : jsstring) :
  Forall plainUnit s → unescapeControlCodes s = Return (Some (JString s)).
Proof.
  intros Hs. rewrite unescape_template.
  by rewrite (JSON_parse_template _ s) by by apply parseStringBody_plain.
Qed.

Lemma unescapeControlCodes_plain_witness :
  Forall plainUnit (js "RRULE:FREQ=WEEKLY;BYDAY=MO,-1FR")
  ∧ unescapeControlCodes (js "RRULE:FREQ=WEEKLY;BYDAY=MO,-1FR")
    = Return (Some (JString (js "RRULE:FREQ=WEEKLY;BYDAY=MO,-1FR"))).
Proof.
  assert (H : Forall plainUnit (js "RRULE:FREQ=WEEKLY;BYDAY=MO,-1FR")).
  { apply (bool_decide_unpack _). vm_compute. exact I. }
  split; [exact H | exact (unescapeControlCodes_plain _ H)].
Defined.

Lemma quoteUnit_printable c : printableUnit c → quoteUnit c = [c].
Proof.
  intros ((Hc & Hq & Hb) & Hl & Ht & _). unfold quoteUnit.
  repeat (match goal with
          | |- context [if ?c =? ?k then _ else _] =>
              destruct (N.eqb_spec c k) as [->|?]; [exfalso; unfold QUOTE, BACKSLASH in *; lia|]
          end).
  rewrite Hl, Ht. apply N.ltb_ge in Hc. by rewrite Hc.
Qed.

Lemma quoteBody_printable s : Forall printableUnit s → quoteBody s = s.
Proof.
  induction 1 as [|c r Hc Hr IH]; [reflexivity|].
  rewrite quoteBody_single.
  - by rewrite quoteUnit_printable, IH.
  - destruct Hc as (_ & Hl & _). simpl. destruct r; [done|]. by rewrite Hl.
Qed.

(** X4: a string of printable code units (no control character, quote,
    backslash, surrogate or line separator) is escaped to itself. *)
Theorem escapeControlCodes_printable (s : jsstring) :
  Forall printableUnit s → escapeControlCodes s = Return s.
Proof.
  intros Hs. rewrite escapeControlCodes_quoteBody.
  - by rewrite quoteBody_printable.
  - eapply Forall_impl; [exact Hs|]. by intros c (_ & _ & _ & Hc).
Qed.

Lemma escapeControlCodes_printable_witness :
  Forall printableUnit (js "RRULE:FREQ=WEEKLY;BYDAY=MO,-1FR")
  ∧ escapeControlCodes (js "RRULE:FREQ=WEEKLY;BYDAY=MO,-1FR")
    = Return (js "RRULE:FREQ=WEEKLY;BYDAY=MO,-1FR").
Proof.
  assert (H : Forall printableUnit (js "RRULE:FREQ=WEEKLY;BYDAY=MO,-1FR")).
  { apply (bool_decide_unpack _). vm_compute. exact I. }
  split; [exact H | exact (escapeControlCodes_printable _ H)].
Defined.

Lemma parseStringBody_plain_then a body :
  Forall plainUnit a →
  parseStringBody body = None → parseStringBody (a ++ body) = None.
Proof.
  intros Ha Hbody. induction Ha as [|c r (Hc & Hq & Hb) Hr IH]; [done|].
  simpl. apply N.eqb_neq in Hq, Hb. rewrite Hq, Hb.
  apply N.ltb_ge in Hc. by rewrite Hc, IH.
Qed.

Lemma unescapeControlCodes_control (a b : jsstring) (c : N) :
  Forall plainUnit a → c < 0x20 → unescapeControlCodes (a ++ c :: b) = Throw SyntaxError.
Proof.
  intros Ha Hc. rewrite unescape_template, <- app_assoc.
  rewrite JSON_parse_template_None; [done|].
  apply parseStringBody_plain_then; [done|]. simpl.
  assert (Hq : (c =? QUOTE) = false) by (apply N.eqb_neq; unfold QUOTE; lia).
  assert (Hb : (c =? BACKSLASH) = false) by (apply N.eqb_neq; unfold BACKSLASH; lia).
  apply N.ltb_lt in Hc. by rewrite Hq, Hb, Hc.
Qed.

(** X5: a raw control character in the rule string, or a backslash at its
    very end, makes unescapeControlCodes throw a SyntaxError. *)
Theorem unescapeControlCodes_rejects (a b : jsstring) (c : N) :
  Forall plainUnit a → c < 0x20 →
  unescapeControlCodes (a ++ c :: b) = Throw SyntaxError
  ∧ unescapeControlCodes (a ++ [BACKSLASH]) = Throw SyntaxError.
Proof.
  intros Ha Hc. split.
  - by apply unescapeControlCodes_control.
  - rewrite unescape_template, <- app_assoc.
    rewrite JSON_parse_template_None; [done|].
    by apply parseStringBody_plain_then.
Qed.

Lemma unescapeControlCodes_rejects_witness :
  Forall plainUnit (js "DTSTART:20240102T000000Z") ∧ 0x0A < 0x20
  ∧ unescapeControlCodes (js "DTSTART:20240102T000000Z" ++ 0x0A :: js "RRULE:FREQ=DAILY")
    = Throw SyntaxError
  ∧ unescapeControlCodes (js "DTSTART:20240102T000000Z" ++ [BACKSLASH]) = Throw SyntaxError.
Proof.
  assert (Ha : Forall plainUnit (js "DTSTART:20240102T000000Z")).
  { apply (bool_decide_unpack _). vm_compute. exact I. }
  assert (Hc : 0x0A < 0x20) by reflexivity.
  split; [exact Ha|]. split; [exact Hc|].
  exact (unescapeControlCodes_rejects _ (js "RRULE:FREQ=DAILY") _ Ha Hc).
Defined.

(** ** rrule_converter.ts *)

Lemma convertUserWeekdayString_no_modifier x w :
  convertUserWeekdayStringToRRuleConstant x = Return w → n w = None.
Proof.
  revert w. unfold convertUserWeekdayStringToRRuleConstant.
  apply (switch_ind (fun r => ∀ w, r = Return w → n w = None)); [|done].
  repeat constructor; by intros w [= <-].
Qed.

Lemma takeWhile_Forall p s : Forall (fun c => p c = true) (takeWhile p s).
Proof.
  induction s as [|c r IH]; simpl; [constructor|].
  destruct (p c) eqn:Hc; by constructor.
Qed.

Lemma sign_not_word c : isSign c = true → isWord c = false.
Proof. intros Hc. range_test. Qed.

(** The shape of a string on which the prefix expression matches. *)
Lemma match_prefix_Some t m :
  match_prefix t = Some m →
  ∃ sign d r,
    t = sign ++ d :: r ∧ isDigit d = true
    ∧ (sign = [] ∨ sign = [0x2D] ∨ sign = [0x2B])
    ∧ m = [sign ++ d :: takeWhile isDigit r].
Proof.
  unfold match_prefix. destruct t as [|c t].
  - simpl. done.
  - destruct (isSign c) eqn:Hc.
    + destruct t as [|d r]; [done|]. cbn [takeWhile].
      destruct (isDigit d) eqn:Hd; [|done]. intros [= <-].
      exists [c], d, r. split_and!; [done | done | | done].
      right. ranges; subst; auto.
    + cbn [takeWhile]. destruct (isDigit c) eqn:Hd; [|done]. intros [= <-].
      exists [], c, t. by split_and!; [| |left|].
Qed.

Lemma match_word_after_sign sign d r :
  isDigit d = true → (sign = [] ∨ sign = [0x2D] ∨ sign = [0x2B]) →
  match_word (sign ++ d :: r) = Some [d :: takeWhile isWord r].
Proof.
  intros Hd Hsign. pose proof (digit_is_word d Hd) as Hw.
  unfold match_word. destruct Hsign as [-> | [-> | ->]]; simpl; rewrite Hw; simpl;
    by rewrite Hw.
Qed.

(** The weekday lookup accepts a word that starts with a digit only when the
    word is that one digit. *)
Lemma convertUserWeekdayString_digit_word d r w :
  isDigit d = true →
  convertUserWeekdayStringToRRuleConstant (d :: takeWhile isWord r) = Return w →
  takeWhile isWord r = [].
Proof.
  intros Hd Hconv. destruct (takeWhile isWord r) as [|c x] eqn:Hx; [done|].
  exfalso. pose proof (takeWhile_Forall isWord r) as Hall. rewrite Hx in Hall.
  change (d :: c :: x) with ([d] ++ c :: x) in Hconv.
  rewrite (convertUserWeekdayString_digit_run [d] (c :: x)) in Hconv;
    [done | done | by repeat constructor | done | done].
Qed.

Lemma takeWhile_word_nil r : takeWhile isWord r = [] → takeWhile isDigit r = [].
Proof.
  destruct r as [|c r]; [done|]. simpl.
  destruct (isDigit c) eqn:Hd; [|done]. by rewrite (digit_is_word c Hd).
Qed.

Lemma digit_cases d :
  isDigit d = true →
  d = 0x30 ∨ d = 0x31 ∨ d = 0x32 ∨ d = 0x33 ∨ d = 0x34
  ∨ d = 0x35 ∨ d = 0x36 ∨ d = 0x37 ∨ d = 0x38 ∨ d = 0x39.
Proof. intros Hd. ranges. lia. Qed.

(** X6: when convertUserByWeekdayToRRuleConstant returns a weekday with an
    occurrence modifier, the modifier is the ISO number of that very weekday,
    with either sign: only a bare, optionally signed digit from 1 to 7 yields
    a modifier. *)
Theorem byweekday_modifier_is_iso_number (s : jsstring) (w : Weekday) (k : number) :
  convertUserByWeekdayToRRuleConstant s = Return w →
  n w = Some k →
  ∃ d : Z, isoWeekday d = Some (weekday w) ∧ (k = Int d ∨ k = Int (- d)).
Proof.
  unfold convertUserByWeekdayToRRuleConstant.
  set (t := trim (toLowerCase s)). intros Hconv Hn.
  destruct (match_prefix t) as [m|] eqn:Hm.
  - destruct (match_prefix_Some t m Hm) as (sign & d & r & Ht & Hd & Hsign & ->).
    rewrite Ht in Hconv. rewrite match_word_after_sign in Hconv by done.
    rewrite <- Ht in Hconv. unfold test_prefix in Hconv. rewrite Hm in Hconv.
    simpl in Hconv.
    destruct (convertUserWeekdayStringToRRuleConstant (d :: takeWhile isWord r))
      as [w0|e] eqn:Hw0; [|done].
    pose proof (convertUserWeekdayString_digit_word _ _ _ Hd Hw0) as Hnil.
    rewrite Hnil in Hw0. rewrite (takeWhile_word_nil r Hnil) in Hconv.
    simpl in Hconv.
    destruct (digit_cases d Hd) as [-> | [-> | [-> | [-> | [-> | [-> | [-> | [-> | [-> | ->]]]]]]]]];
      vm_compute in Hw0; try discriminate Hw0; injection Hw0 as <-;
      destruct Hsign as [-> | [-> | ->]]; vm_compute in Hconv;
      injection Hconv as <-; injection Hn as <-;
      first [ by exists 1%Z; auto | by exists 2%Z; auto | by exists 3%Z; auto
            | by exists 4%Z; auto | by exists 5%Z; auto | by exists 6%Z; auto
            | by exists 7%Z; auto ].
  - unfold test_prefix in Hconv. rewrite Hm in Hconv.
    destruct (match_word t) as [l|]; [|done].
    destruct (negb (length l =? 1)%nat); [done|].
    destruct (l !! 0%nat) as [x|]; [|done]. simpl in Hconv.
    apply convertUserWeekdayString_no_modifier in Hconv. congruence.
Qed.

Lemma byweekday_modifier_is_iso_number_witness :
  convertUserByWeekdayToRRuleConstant (js " -3 ") = Return (mkWeekday WE (Some (Int (-3))))
  ∧ n (mkWeekday WE (Some (Int (-3)))) = Some (Int (-3))
  ∧ ∃ d : Z, isoWeekday d = Some WE ∧ (Int (-3) = Int d ∨ Int (-3) = Int (- d)).
Proof.
  assert (H1 : convertUserByWeekdayToRRuleConstant (js " -3 ")
               = Return (mkWeekday WE (Some (Int (-3))))) by (vm_compute; reflexivity).
  split; [exact H1|]. split; [reflexivity|].
  exact (byweekday_modifier_is_iso_number _ _ _ H1 eq_refl).
Defined.

(** ** pack.ts *)

Lemma Qltb_ceiling (q : Q) (i : nat) :
  Qltb (inject_Z (Z.of_nat i)) q = true ↔ (i < Z.to_nat (Qceiling q))%nat.
Proof.
  unfold Qltb. rewrite negb_true_iff.
  split.
  - intros Hle.
    destruct (Qlt_le_dec (inject_Z (Z.of_nat i)) q) as [Hlt|Hge].
    + assert (Hc : (inject_Z (Z.of_nat i) < inject_Z (Qceiling q))%Q).
      { eapply Qlt_le_trans; [exact Hlt | apply Qle_ceiling]. }
      rewrite <- Zlt_Qlt in Hc. lia.
    + apply Qle_bool_iff in Hge. congruence.
  - intros Hi.
    destruct (Qle_bool q (inject_Z (Z.of_nat i))) eqn:Hb; [exfalso|done].
    apply Qle_bool_iff in Hb.
    pose proof (Qceiling_lt q) as Hc.
    assert (Hz : (inject_Z (Qceiling q - 1) < inject_Z (Z.of_nat i))%Q).
    { eapply Qlt_le_trans; [exact Hc | exact Hb]. }
    rewrite <- Zlt_Qlt in Hz. lia.
Qed.

Lemma collect_take (it : Z → nat → bool) (k : nat) (ds acc : list Z) :
  (∀ d i, it d i = true ↔ (i < k)%nat) →
  collect it ds acc = acc ++ take (k - length acc) ds.
Proof.
  intros Hit. revert acc. induction ds as [|d ds IH]; intros acc; simpl.
  - by rewrite take_nil, app_nil_r.
  - destruct (it d (length acc)) eqn:Hd.
    + apply Hit in Hd. rewrite IH, length_app. simpl.
      replace (k - length acc)%nat with (S (k - (length acc + 1))) by lia.
      simpl. by rewrite <- app_assoc.
    + assert (Hge : ¬ (length acc < k)%nat) by (rewrite <- Hit, Hd; done).
      replace (k - length acc)%nat with 0%nat by lia.
      by rewrite app_nil_r.
Qed.

Lemma cap_ceiling (limit : Q) :
  Z.to_nat (Qceiling (Qmin limit MAX_CONSUMED_RECURRENCES))
  = Nat.min (Z.to_nat (Qceiling limit)) 1000.
Proof.
  unfold MAX_CONSUMED_RECURRENCES.
  destruct (Q.min_spec limit 1000) as [[Hlt Heq] | [Hle Heq]]; rewrite Heq.
  - assert (Hc : (Qceiling limit <= Qceiling 1000)%Z)
      by (apply Qceiling_resp_le; by apply Qlt_le_weak).
    change (Qceiling 1000) with 1000%Z in Hc. lia.
  - assert (Hc : (Qceiling 1000 <= Qceiling limit)%Z) by by apply Qceiling_resp_le.
    change (Qceiling 1000) with 1000%Z in *. lia.
Qed.

Section Limits.

Context `{Engine} (now : Z).

(** The number of occurrences that All and Between let through. *)
Lemma collect_limit (limit : Q) (ds : list Z) :
  collect (limitingIterator (Qmin limit MAX_CONSUMED_RECURRENCES)) ds []
  = take (Nat.min (Z.to_nat (Qceiling limit)) 1000) ds.
Proof.
  rewrite (collect_take _ (Nat.min (Z.to_nat (Qceiling limit)) 1000)).
  - simpl. by rewrite Nat.sub_0_r.
  - intros d i. unfold limitingIterator. by rewrite Qltb_ceiling, cap_ceiling.
Qed.

(** X7: on a valid rule string All returns the ISO strings of exactly the
    first min(ceiling(limit), 1000) occurrences, in order, and Between those
    of the first so many occurrences within the bounds; the limit is 100
    when none is given, and a limit of zero or less gives the empty list. *)
Theorem All_Between_return_first_limit (rrule : jsstring) (limit : option Q)
    (u : option json) (rule : RRule) :
  unescapeControlCodes rrule = Return u →
  rrulestr now u = inr rule →
  All now rrule limit
  = Return (toISOString <$>
            take (Nat.min (Z.to_nat (Qceiling (default (100 : Q) limit))) 1000)
                 (occurrences rule))
  ∧ ∀ a b inc,
      Between now rrule a b limit inc
      = Return (toISOString <$>
                take (Nat.min (Z.to_nat (Qceiling (default (100 : Q) limit))) 1000)
                     (List.filter (inRange a b (default false inc)) (occurrences rule))).
Proof.
  intros Hu Hrule.
  assert (Hparse : parseRule now u = Return rule) by (unfold parseRule; by rewrite Hrule).
  unfold All, Between. rewrite Hu. simpl. rewrite Hparse. simpl. split.
  - unfold all. by rewrite collect_limit.
  - intros a b inc. unfold between. by rewrite collect_limit.
Qed.

End Limits.

Lemma All_Between_return_first_limit_witness :
  let E := DailyEngine.dailyEngine in
  let rrule := js "RRULE:FREQ=DAILY;COUNT=5" in
  unescapeControlCodes rrule = Return (Some (JString rrule))
  ∧ @rrulestr E DailyEngine.NOW (Some (JString rrule))
    = inr (DailyEngine.dailyRule DailyEngine.NOW 5)
  ∧ @All E DailyEngine.NOW rrule (Some (5 # 2))
    = Return [js "2024-01-02T00:00:00.000Z"; js "2024-01-03T00:00:00.000Z";
              js "2024-01-04T00:00:00.000Z"].
Proof.
  intros E rrule.
  assert (Hu : unescapeControlCodes rrule = Return (Some (JString rrule)))
    by (vm_compute; reflexivity).
  assert (Hr : @rrulestr E DailyEngine.NOW (Some (JString rrule))
               = inr (DailyEngine.dailyRule DailyEngine.NOW 5))
    by (vm_compute; reflexivity).
  split_and!; [exact Hu | exact Hr |].
  destruct (@All_Between_return_first_limit E DailyEngine.NOW rrule (Some (5 # 2)) _ _ Hu Hr)
    as [Hall _].
  rewrite Hall. vm_compute. reflexivity.
Defined.

(** The only errors of the weekday-with-prefix converter are an empty
    CouldNotConvertError and the TypeError of the null word match: the
    engine's refusal of a zero modifier is never reached. *)
Lemma convertUserByWeekday_throws s e :
  convertUserByWeekdayToRRuleConstant s = Throw e →
  e = CouldNotConvertError [] ∨ e = TypeError.
Proof.
  unfold convertUserByWeekdayToRRuleConstant.
  set (t := trim (toLowerCase s)). intros Hconv.
  destruct (match_prefix t) as [m|] eqn:Hm.
  - destruct (match_prefix_Some t m Hm) as (sign & d & r & Ht & Hd & Hsign & ->).
    rewrite Ht in Hconv. rewrite match_word_after_sign in Hconv by done.
    rewrite <- Ht in Hconv. unfold test_prefix in Hconv. rewrite Hm in Hconv.
    simpl in Hconv.
    destruct (convertUserWeekdayStringToRRuleConstant (d :: takeWhile isWord r))
      as [w0|e0] eqn:Hw0.
    + exfalso.
      pose proof (convertUserWeekdayString_digit_word _ _ _ Hd Hw0) as Hnil.
      rewrite Hnil in Hw0. rewrite (takeWhile_word_nil r Hnil) in Hconv.
      simpl in Hconv.
      destruct (digit_cases d Hd) as [-> | [-> | [-> | [-> | [-> | [-> | [-> | [-> | [-> | ->]]]]]]]]];
        vm_compute in Hw0; try discriminate Hw0; injection Hw0 as <-;
        destruct Hsign as [-> | [-> | ->]]; vm_compute in Hconv; discriminate Hconv.
    + simpl in Hconv. injection Hconv as <-. left.
      by apply (convertUserWeekdayString_throws _ _ Hw0).
  - unfold test_prefix in Hconv. rewrite Hm in Hconv.
    destruct (match_word t) as [l|]; [|by right; injection Hconv as <-].
    destruct (negb (length l =? 1)%nat); [by left; injection Hconv as <-|].
    destruct (l !! 0%nat) as [x|]; [|by right; injection Hconv as <-]. simpl in Hconv.
    left. by apply (convertUserWeekdayString_throws _ _ Hconv).
Qed.

Lemma mapR_Throw {A B} (f : A → result B) xs e :
  mapR f xs = Throw e → ∃ x, x ∈ xs ∧ f x = Throw e.
Proof.
  induction xs as [|x xs IH]; simpl; [done|].
  destruct (f x) as [y|e'] eqn:Hx; simpl.
  - destruct (mapR f xs) as [ys|e'']; simpl; [done|]. intros [= ->].
    destruct IH as (x' & Hin & Hx'); [done|]. exists x'. split; [by right | done].
  - intros [= ->]. exists x. split; [by left | done].
Qed.

(** The errors that the option literal of CreateRRule and ModifyRRule can
    throw. *)
Lemma optionsLiteral_throws (frequency : option jsstring) (p : RuleParams) (e : exn) :
  optionsLiteral
    (convertIfDefined (fun f => VFrequency <$> convertFrequencyStringToRRuleConstant f) frequency)
    p = Throw e →
  e = CouldNotConvertError [] ∨ e = TypeError.
Proof.
  unfold optionsLiteral.
  destruct (convertIfDefined _ frequency) as [f|e0] eqn:Hf; simpl.
  - destruct (convertIfDefined _ (wkst p)) as [w|e1] eqn:Hw; simpl.
    + destruct (convertIfDefined _ (bymonth p)) as [m|e2] eqn:Hm; simpl.
      * destruct (convertIfDefined _ (byweekday p)) as [d|e3] eqn:Hd; simpl; [done|].
        intros [= ->]. destruct (byweekday p) as [ds|]; [|done]. simpl in Hd.
        destruct (mapR convertUserByWeekdayToRRuleConstant ds) as [xs|e4] eqn:Hmap; [done|].
        simpl in Hd. injection Hd as ->.
        apply mapR_Throw in Hmap as (x & _ & Hx). by apply (convertUserByWeekday_throws x).
      * intros [= ->]. destruct (bymonth p) as [ms|]; [|done]. simpl in Hm.
        destruct (mapR convertUserMonthStringToRRuleConstant ms) as [xs|e4] eqn:Hmap; [done|].
        simpl in Hm. injection Hm as ->.
        apply mapR_Throw in Hmap as (x & _ & Hx). left.
        by apply (convertUserMonthString_throws _ _ Hx).
    + intros [= ->]. destruct (wkst p) as [x|]; [|done]. simpl in Hw.
      destruct (convertUserWeekdayStringToRRuleConstant x) as [y|e4] eqn:Hx; [done|].
      simpl in Hw. injection Hw as ->. left. by apply (convertUserWeekdayString_throws _ _ Hx).
  - intros [= ->]. destruct frequency as [x|]; [|done]. simpl in Hf.
    destruct (convertFrequencyStringToRRuleConstant x) as [y|e4] eqn:Hx; [done|].
    simpl in Hf. injection Hf as ->. left. by apply (convertFrequencyString_throws _ _ Hx).
Qed.

Lemma buildOptions_Throw (freq : result value) (p : RuleParams) (h : heap) (e : exn) :
  optionsLiteral freq p = Throw e →
  buildOptions freq p h
  = (Throw (match e with
            | CouldNotConvertError message => UserVisibleError message
            | _ => e
            end), h).
Proof.
  intros Hlit. unfold buildOptions, tryCatch.
  unfold mbind at 1, M_bind at 1. unfold liftR at 1. rewrite Hlit.
  by destruct e.
Qed.

(** X8: when CreateRRule or ModifyRRule reads its parameters (ModifyRRule
    with an optional frequency, CreateRRule with a required one), it either
    builds the options object or fails in one of two ways, a
    UserVisibleError whose message is empty or a bare TypeError; in both
    failures nothing has been allocated. *)
Theorem options_fail_blank_or_TypeError (frequency : option jsstring)
    (p : RuleParams) (h : heap) :
  let freq := convertIfDefined
                (fun f => VFrequency <$> convertFrequencyStringToRRuleConstant f) frequency in
  (∃ o h', buildOptions freq p h = (Return o, h'))
  ∨ buildOptions freq p h = (Throw (UserVisibleError []), h)
  ∨ buildOptions freq p h = (Throw TypeError, h).
Proof.
  intros freq.
  destruct (optionsLiteral freq p) as [literal|e] eqn:Hlit.
  - left. destruct (buildOptions_run freq p literal h Hlit) as (stripped & Hrun & _).
    eauto.
  - right. rewrite (buildOptions_Throw freq p h e Hlit).
    destruct (optionsLiteral_throws _ _ _ Hlit) as [-> | ->]; auto.
Qed.

Example CreateRRule_unknown_frequency :
  CreateRRule_options (js "fortnightly") (countParams 3) ∅
  = (Throw (UserVisibleError []), ∅).
Proof. vm_compute. reflexivity. Qed.

Section Channels.

Context `{TextEngine} (now later : Z).

(** X9: a rule string that holds a raw control character (a line break, for
    one) makes every formula that takes a rule string throw the SyntaxError
    of [JSON.parse] as it is, not a UserVisibleError: the unescaping stands
    outside the formulas' try blocks. *)
Theorem raw_control_code_throws_SyntaxError (a b : jsstring) (c : N)
    (limit : option Q) (after before date : Z) (include : option bool)
    (frequency : option jsstring) (p : RuleParams) (h : heap) :
  Forall plainUnit a → c < 0x20 →
  let rrule := a ++ c :: b in
  All now rrule limit = Throw SyntaxError
  ∧ Between now rrule after before limit include = Throw SyntaxError
  ∧ First now rrule = Throw SyntaxError
  ∧ After now rrule date include = Throw SyntaxError
  ∧ Before now rrule date include = Throw SyntaxError
  ∧ ToText now rrule = Throw SyntaxError
  ∧ IsFullyConvertibleToText now rrule = Throw SyntaxError
  ∧ ModifyRRule now later rrule frequency p h = (Throw SyntaxError, h).
Proof.
  intros Ha Hc rrule.
  assert (Hu : unescapeControlCodes rrule = Throw SyntaxError)
    by by apply unescapeControlCodes_control.
  assert (Hmodify : ModifyRRule now later rrule frequency p h = (Throw SyntaxError, h)).
  { unfold ModifyRRule, ModifyRRule_options.
    unfold mbind at 1, M_bind at 1. unfold mbind at 1, M_bind at 1.
    unfold liftR at 1. by rewrite Hu. }
  unfold All, Between, First, After, Before, ToText, IsFullyConvertibleToText.
  rewrite Hu. by split_and!; [reflexivity..|exact Hmodify].
Qed.

(** X10: a rule string that the engine refuses with a message makes every
    formula that takes a rule string throw a UserVisibleError carrying that
    very message, and ModifyRRule allocates nothing. *)
Theorem engine_message_is_user_visible (rrule message : jsstring) (u : option json)
    (limit : option Q) (after before date : Z) (include : option bool)
    (frequency : option jsstring) (p : RuleParams) (h : heap) :
  unescapeControlCodes rrule = Return u →
  rrulestr now u = inl message →
  All now rrule limit = Throw (UserVisibleError message)
  ∧ Between now rrule after before limit include = Throw (UserVisibleError message)
  ∧ First now rrule = Throw (UserVisibleError message)
  ∧ After now rrule date include = Throw (UserVisibleError message)
  ∧ Before now rrule date include = Throw (UserVisibleError message)
  ∧ ToText now rrule = Throw (UserVisibleError message)
  ∧ IsFullyConvertibleToText now rrule = Throw (UserVisibleError message)
  ∧ ModifyRRule now later rrule frequency p h = (Throw (UserVisibleError message), h).
Proof.
  intros Hu Hrule.
  assert (Hparse : parseRule now u = Throw (UserVisibleError message))
    by (unfold parseRule; by rewrite Hrule).
  assert (Hmodify : ModifyRRule now later rrule frequency p h = (Throw (UserVisibleError message), h)).
  { unfold ModifyRRule, ModifyRRule_options.
    unfold mbind at 1, M_bind at 1.
    rewrite (bind_Return _ _ h h u); [|unfold liftR; by rewrite Hu].
    unfold mbind at 1, M_bind at 1. unfold liftR at 1. by rewrite Hparse. }
  unfold All, Between, First, After, Before, ToText, IsFullyConvertibleToText.
  rewrite Hu. cbn [mbind result_bind]. rewrite Hparse.
  by split_and!; [reflexivity..|exact Hmodify].
Qed.

Lemma bind_Return_inv {A B} (m : M A) (f : A → M B) (h h' : heap) (b : B) :
  (m ≫= f) h = (Return b, h') → ∃ a h1, m h = (Return a, h1) ∧ f a h1 = (Return b, h').
Proof.
  unfold mbind, M_bind. destruct (m h) as [[a|e] h1] eqn:Hm; [|done].
  intros Hf. by exists a, h1.
Qed.

Lemma constructAndRender_Return (t : Z) (options : loc) (h h' : heap) (r : jsstring) :
  constructAndRender t options h = (Return r, h') →
  ∃ rule, escapeControlCodes (toString rule) = Return r.
Proof.
  unfold constructAndRender.
  intros (o & h1 & _ & Hrest)%bind_Return_inv.
  apply bind_Return_inv in Hrest as (rule & h2 & _ & Hesc).
  exists rule. unfold liftR in Hesc. by injection Hesc as ->.
Qed.

Lemma escaped_unescapes s r :
  escapeControlCodes s = Return r → unescapeControlCodes r = Return (Some (JString s)).
Proof.
  intros [-> _]%escapeControlCodes_Return. apply unescapeControlCodes_quoteBody.
Qed.

(** X11: every rule string that CreateRRule, ModifyRRule or FromText
    returns is unescaped by the consuming formulas to exactly the text that
    the engine rendered for the new rule. *)
Theorem emitted_rule_string_unescapes (r : jsstring) :
  (∃ frequency p h h', CreateRRule now frequency p h = (Return r, h'))
  ∨ (∃ rrule frequency p h h', ModifyRRule now later rrule frequency p h = (Return r, h'))
  ∨ (∃ text, FromText now text = Return r) →
  ∃ rule, unescapeControlCodes r = Return (Some (JString (toString rule))).
Proof.
  intros [(frequency & p & h & h' & Hrun) | [(rrule & frequency & p & h & h' & Hrun) | (text & Hrun)]];
    revert Hrun.
  - unfold CreateRRule.
    intros (o & h1 & _ & Hrender)%bind_Return_inv.
    apply constructAndRender_Return in Hrender as (rule & Hesc).
    exists rule. by apply escaped_unescapes.
  - unfold ModifyRRule.
    intros (o & h1 & _ & Hrender)%bind_Return_inv.
    apply constructAndRender_Return in Hrender as (rule & Hesc).
    exists rule. by apply escaped_unescapes.
  - unfold FromText.
    destruct (parseText now text) as [rule|e]; [|done]. simpl. intros Hesc.
    exists rule. by apply escaped_unescapes.
Qed.

End Channels.

Lemma raw_control_code_throws_SyntaxError_witness :
  let E := DailyEngine.dailyEngine in
  let T := DailyEngine.dailyTextEngine in
  Forall plainUnit (js "DTSTART:20240102T000000Z") ∧ 0x0A < 0x20
  ∧ @First E DailyEngine.NOW (js "DTSTART:20240102T000000Z" ++ 0x0A :: js "RRULE:FREQ=DAILY")
    = Throw SyntaxError.
Proof.
  intros E T.
  assert (Ha : Forall plainUnit (js "DTSTART:20240102T000000Z")).
  { apply (bool_decide_unpack _). vm_compute. exact I. }
  assert (Hc : 0x0A < 0x20) by reflexivity.
  split; [exact Ha|]. split; [exact Hc|].
  destruct (@raw_control_code_throws_SyntaxError E T DailyEngine.NOW DailyEngine.NOW
              _ (js "RRULE:FREQ=DAILY") _ None 0%Z 0%Z 0%Z None None (countParams 1) ∅ Ha Hc)
    as (_ & _ & Hfirst & _).
  exact Hfirst.
Defined.

Lemma engine_message_is_user_visible_witness :
  let E := DailyEngine.dailyEngine in
  let T := DailyEngine.dailyTextEngine in
  unescapeControlCodes (js "FREQ=DAILY") = Return (Some (JString (js "FREQ=DAILY")))
  ∧ @rrulestr E DailyEngine.NOW (Some (JString (js "FREQ=DAILY"))) = inl (js "Unsupported RFC prop")
  ∧ @ToText E T DailyEngine.NOW (js "FREQ=DAILY") = Throw (UserVisibleError (js "Unsupported RFC prop")).
Proof.
  intros E T.
  assert (Hu : unescapeControlCodes (js "FREQ=DAILY") = Return (Some (JString (js "FREQ=DAILY"))))
    by (vm_compute; reflexivity).
  assert (Hr : @rrulestr E DailyEngine.NOW (Some (JString (js "FREQ=DAILY"))) = inl (js "Unsupported RFC prop"))
    by (vm_compute; reflexivity).
  split; [exact Hu|]. split; [exact Hr|].
  destruct (@engine_message_is_user_visible E T DailyEngine.NOW DailyEngine.NOW
              _ _ _ None 0%Z 0%Z 0%Z None None (countParams 1) ∅ Hu Hr)
    as (_ & _ & _ & _ & _ & Htext & _).
  exact Htext.
Defined.

Lemma emitted_rule_string_unescapes_witness :
  let E := DailyEngine.dailyEngine in
  let T := DailyEngine.dailyTextEngine in
  @FromText E T DailyEngine.NOW (js "Every day for 3 times") = Return (js "RRULE:FREQ=DAILY;COUNT=3")
  ∧ ∃ rule, unescapeControlCodes (js "RRULE:FREQ=DAILY;COUNT=3")
            = Return (Some (JString (@toString E rule))).
Proof.
  intros E T.
  assert (Hrun : @FromText E T DailyEngine.NOW (js "Every day for 3 times")
                 = Return (js "RRULE:FREQ=DAILY;COUNT=3")) by (vm_compute; reflexivity).
  split; [exact Hrun|].
  apply (@emitted_rule_string_unescapes E T DailyEngine.NOW DailyEngine.NOW).
  right; right. by eexists.
Defined.

(** ** object.helpers.ts *)

(** X12: deleteUndefinedProps changes nothing on an object that has no
    undefined property, and running it a second time on the same object
    changes nothing: it is idempotent. *)
Theorem deleteUndefinedProps_idempotent (h : heap) (o : loc) (obj : object) :
  h !! o = Some obj →
  ((∀ k, obj !! k ≠ Some VUndefined) → deleteUndefinedProps o h = (Return o, h))
  ∧ ∃ h1, deleteUndefinedProps o h = (Return o, h1)
          ∧ deleteUndefinedProps o h1 = (Return o, h1).
Proof.
  assert (Hnoop : ∀ (h : heap) (obj : object),
            h !! o = Some obj → (∀ k, obj !! k ≠ Some VUndefined) →
            deleteUndefinedProps o h = (Return o, h)).
  { clear h obj. intros h obj Ho Hdef.
    destruct (deleteUndefinedProps_run h o obj Ho) as (obj' & Hrun & _ & Hkept & Hsub).
    rewrite Hrun. f_equal. apply insert_id. rewrite Ho. f_equal.
    apply map_eq. intros k. destruct (obj !! k) as [v|] eqn:Hk.
    - symmetry. apply Hkept; [done|]. intros ->. by apply (Hdef k).
    - destruct (obj' !! k) as [v|] eqn:Hk'; [|done].
      apply Hsub in Hk'. congruence. }
  intros Ho. split; [by apply Hnoop|].
  destruct (deleteUndefinedProps_run h o obj Ho) as (obj' & Hrun & Hundef & _).
  exists (<[o := obj']> h). split; [exact Hrun|].
  apply (Hnoop _ obj'); [by rewrite lookup_insert_eq | exact Hundef].
Qed.

Lemma deleteUndefinedProps_idempotent_witness :
  ({[ 1%positive := sampleObject ]} : heap) !! 1%positive = Some sampleObject
  ∧ ∃ h1, deleteUndefinedProps 1%positive {[ 1%positive := sampleObject ]}
          = (Return 1%positive, h1)
          ∧ deleteUndefinedProps 1%positive h1 = (Return 1%positive, h1).
Proof.
  assert (H : ({[ 1%positive := sampleObject ]} : heap) !! 1%positive = Some sampleObject)
    by apply lookup_singleton_eq.
  split; [exact H|]. exact (proj2 (deleteUndefinedProps_idempotent _ _ _ H)).
Defined.

(** ** Letter case *)

Ltac unit_cases :=
  unfold lowerUnit, upperUnit;
  repeat match goal with
         | |- context [if ?b then _ else _] => destruct b eqn:?
         end.

Lemma lowerUnit_ascii c :
  c < 0x80 →
  ∃ c', lowerUnit c = [c'] ∧ c' < 0x80 ∧ lowerUnit c' = [c'] ∧ upperUnit c' = upperUnit c.
Proof.
  intros Hc. unfold lowerUnit at 1.
  destruct (JS.between 65 90 c) eqn:Hup.
  - exists (c + 32). ranges. split_and!; [done | lia | |].
    + unit_cases; try reflexivity; exfalso; ranges; lia.
    + unit_cases; try (exfalso; ranges; lia). f_equal. lia.
  - exists c.
    assert (Hlat : JS.between 192 222 c && negb (c =? 215) = false).
    { apply andb_false_iff. left. range_test. }
    assert (H1 : (c =? 304) = false) by (apply N.eqb_neq; lia).
    assert (H2 : (c =? 8490) = false) by (apply N.eqb_neq; lia).
    rewrite Hlat, H1, H2. split_and!; [done | done | | done].
    unfold lowerUnit. by rewrite Hup, Hlat, H1, H2.
Qed.

Lemma upperUnit_ascii c :
  c < 0x80 →
  ∃ c', upperUnit c = [c'] ∧ c' < 0x80 ∧ upperUnit c' = [c'] ∧ lowerUnit c' = lowerUnit c.
Proof.
  intros Hc. unfold upperUnit at 1.
  destruct (JS.between 97 122 c) eqn:Hlow.
  - exists (c - 32). ranges. split_and!; [done | lia | |].
    + unit_cases; try reflexivity; exfalso; ranges; lia.
    + unit_cases; try (exfalso; ranges; lia). f_equal. lia.
  - exists c.
    assert (Hlat : JS.between 224 254 c && negb (c =? 247) = false).
    { apply andb_false_iff. left. range_test. }
    assert (H1 : (c =? 223) = false) by (apply N.eqb_neq; lia).
    assert (H2 : (c =? 181) = false) by (apply N.eqb_neq; lia).
    assert (H3 : (c =? 255) = false) by (apply N.eqb_neq; lia).
    assert (H4 : (c =? 305) = false) by (apply N.eqb_neq; lia).
    assert (H5 : (c =? 383) = false) by (apply N.eqb_neq; lia).
    rewrite Hlat, H1, H2, H3, H4, H5. split_and!; [done | done | | done].
    unfold upperUnit. by rewrite Hlow, Hlat, H1, H2, H3, H4, H5.
Qed.

Lemma toUpperCase_cons c r : toUpperCase (c :: r) = upperUnit c ++ toUpperCase r.
Proof. reflexivity. Qed.

Lemma toLowerCase_ascii s :
  isAscii s →
  isAscii (toLowerCase s)
  ∧ toLowerCase (toLowerCase s) = toLowerCase s
  ∧ toUpperCase (toLowerCase s) = toUpperCase s.
Proof.
  induction 1 as [|c r Hc Hr (IH1 & IH2 & IH3)]; [by split_and!; [constructor|..]|].
  destruct (lowerUnit_ascii c Hc) as (c' & Hl & Hc' & Hll & Hul).
  rewrite !toLowerCase_cons, Hl. cbn [app].
  rewrite toLowerCase_cons, !toUpperCase_cons, Hll, Hul, IH2, IH3.
  split_and!; [by constructor | done | done].
Qed.

Lemma toUpperCase_ascii s :
  isAscii s →
  isAscii (toUpperCase s)
  ∧ toUpperCase (toUpperCase s) = toUpperCase s
  ∧ toLowerCase (toUpperCase s) = toLowerCase s.
Proof.
  induction 1 as [|c r Hc Hr (IH1 & IH2 & IH3)]; [by split_and!; [constructor|..]|].
  destruct (upperUnit_ascii c Hc) as (c' & Hu & Hc' & Huu & Hlu).
  rewrite !toUpperCase_cons, Hu. cbn [app].
  rewrite toUpperCase_cons, !toLowerCase_cons, Huu, Hlu, IH2, IH3.
  split_and!; [by constructor | done | done].
Qed.

(** Capitalizing does not change what lower-casing gives. *)
Lemma capitalize_ascii s :
  isAscii s → isAscii (capitalize s) ∧ toLowerCase (capitalize s) = toLowerCase s.
Proof.
  intros Hs. destruct (toLowerCase_ascii s Hs) as (Hls & Hll & _).
  unfold capitalize. destruct (toLowerCase s) as [|c r] eqn:Hlow; [done|].
  destruct (isWord c); [|done].
  apply Forall_cons in Hls as [Hc Hr].
  destruct (upperUnit_ascii c Hc) as (c' & Hu & Hc' & _ & Hlu).
  rewrite toUpperCase_cons, Hu. cbn [app toUpperCase mbind list_bind].
  split; [by constructor|].
  rewrite toLowerCase_cons, Hlu. by rewrite <- toLowerCase_cons, Hll.
Qed.

Lemma lowerUnit_nonempty c : lowerUnit c ≠ [].
Proof. unit_cases; done. Qed.

Lemma trimStart_toLowerCase s : trimStart (toLowerCase s) = toLowerCase (trimStart s).
Proof.
  unfold trimStart. induction s as [|c r IH]; [done|].
  rewrite toLowerCase_cons. simpl dropWhile at 2.
  destruct (isWhiteSpace c) eqn:Hc.
  - rewrite lowerUnit_white by done. simpl. by rewrite Hc.
  - pose proof (lowerUnit_not_white c Hc) as Hnw. pose proof (lowerUnit_nonempty c) as Hne.
    rewrite toLowerCase_cons.
    destruct (lowerUnit c) as [|x xs]; [done|]. apply Forall_cons in Hnw as [Hx _].
    simpl. by rewrite Hx.
Qed.

Lemma trimEnd_snoc_white y c : isWhiteSpace c = true → trimEnd (y ++ [c]) = trimEnd y.
Proof. intros Hc. apply trimEnd_app_white. by repeat constructor. Qed.

Lemma trimEnd_snoc_nonwhite y b : isWhiteSpace b = false → trimEnd (y ++ [b]) = y ++ [b].
Proof.
  intros Hb. unfold trimEnd. rewrite rev_app_distr. simpl. rewrite Hb.
  simpl. by rewrite rev_involutive.
Qed.

Lemma trimEnd_toLowerCase s : trimEnd (toLowerCase s) = toLowerCase (trimEnd s).
Proof.
  induction s as [|c r IH] using rev_ind; [done|].
  rewrite toLowerCase_app. change (toLowerCase [c]) with (lowerUnit c ++ []).
  rewrite app_nil_r.
  destruct (isWhiteSpace c) eqn:Hc.
  - rewrite lowerUnit_white by done. by rewrite !trimEnd_snoc_white.
  - rewrite (trimEnd_snoc_nonwhite r c) by done.
    rewrite toLowerCase_app. change (toLowerCase [c]) with (lowerUnit c ++ []).
    rewrite app_nil_r.
    pose proof (lowerUnit_not_white c Hc) as Hnw. pose proof (lowerUnit_nonempty c) as Hne.
    destruct (lowerUnit c) as [|x xs] using rev_ind; [done|]. clear IHxs.
    apply Forall_app in Hnw as [_ [Hx _]%Forall_cons].
    rewrite app_assoc. by apply trimEnd_snoc_nonwhite.
Qed.

(** Trimming and lower-casing commute. *)
Lemma trim_toLowerCase s : trim (toLowerCase s) = toLowerCase (trim s).
Proof. unfold trim. by rewrite trimStart_toLowerCase, trimEnd_toLowerCase. Qed.

(** On ASCII input the frequency lookup sees the same key as it would after
    lower-casing the input first. *)
Lemma frequency_key_lower x :
  isAscii x → toUpperCase (trim x) = toUpperCase (trim (toLowerCase x)).
Proof.
  intros Hx. rewrite trim_toLowerCase.
  assert (Ht : isAscii (trim x)) by by apply trim_Forall.
  by destruct (toLowerCase_ascii (trim x) Ht) as (_ & _ & ->).
Qed.

Lemma converters_lower s s' :
  isAscii s → isAscii s' → toLowerCase s = toLowerCase s' →
  convertUserWeekdayStringToRRuleConstant s = convertUserWeekdayStringToRRuleConstant s'
  ∧ convertUserMonthStringToRRuleConstant s = convertUserMonthStringToRRuleConstant s'
  ∧ convertFrequencyStringToRRuleConstant s = convertFrequencyStringToRRuleConstant s'
  ∧ convertUserByWeekdayToRRuleConstant s = convertUserByWeekdayToRRuleConstant s'.
Proof.
  intros Hs Hs' Hlow.
  unfold convertUserWeekdayStringToRRuleConstant, convertUserMonthStringToRRuleConstant,
    convertFrequencyStringToRRuleConstant, convertUserByWeekdayToRRuleConstant.
  rewrite (frequency_key_lower s), (frequency_key_lower s') by done.
  by rewrite Hlow.
Qed.

Lemma white_ascii_pad pre s post :
  Forall (fun c => isWhiteSpace c = true) pre →
  Forall (fun c => isWhiteSpace c = true) post →
  toLowerCase (trim (pre ++ s ++ post)) = toLowerCase (trim s).
Proof. intros Hpre Hpost. by rewrite trim_pad. Qed.

(** X13: letter case and surrounding white space do not matter to the
    token converters: for an ASCII token, its upper-cased, lower-cased and
    capitalized forms (the form the parameter descriptions display), each
    padded with any white space, convert exactly as the token itself. *)
Theorem converters_ignore_case_and_padding (s v pre post : jsstring) :
  isAscii s →
  v = toUpperCase s ∨ v = toLowerCase s ∨ v = capitalize s →
  Forall (fun c => isWhiteSpace c = true) pre →
  Forall (fun c => isWhiteSpace c = true) post →
  convertUserWeekdayStringToRRuleConstant (pre ++ v ++ post)
  = convertUserWeekdayStringToRRuleConstant s
  ∧ convertUserMonthStringToRRuleConstant (pre ++ v ++ post)
    = convertUserMonthStringToRRuleConstant s
  ∧ convertFrequencyStringToRRuleConstant (pre ++ v ++ post)
    = convertFrequencyStringToRRuleConstant s.
Proof.
  intros Hs Hv Hpre Hpost.
  assert (Hvs : isAscii v ∧ toLowerCase v = toLowerCase s).
  { destruct Hv as [-> | [-> | ->]].
    - by destruct (toUpperCase_ascii s Hs) as (? & _ & ?).
    - by destruct (toLowerCase_ascii s Hs) as (? & ? & _).
    - by apply capitalize_ascii. }
  destruct Hvs as [Hva Hlow].
  destruct (converters_lower v s Hva Hs Hlow) as (Hw & Hm & Hf & _).
  rewrite <- Hw, <- Hm, <- Hf.
  unfold convertUserWeekdayStringToRRuleConstant, convertUserMonthStringToRRuleConstant,
    convertFrequencyStringToRRuleConstant.
  rewrite normalize_pad by done. by rewrite trim_pad.
Qed.

Lemma converters_ignore_case_and_padding_witness :
  isAscii (js "wEdNeSdAy")
  ∧ (capitalize (js "wEdNeSdAy") = toUpperCase (js "wEdNeSdAy")
     ∨ capitalize (js "wEdNeSdAy") = toLowerCase (js "wEdNeSdAy")
     ∨ capitalize (js "wEdNeSdAy") = capitalize (js "wEdNeSdAy"))
  ∧ Forall (fun c => isWhiteSpace c = true) [0x20; 0x09]
  ∧ Forall (fun c => isWhiteSpace c = true) [0xA0]
  ∧ convertUserWeekdayStringToRRuleConstant ([0x20; 0x09] ++ capitalize (js "wEdNeSdAy") ++ [0xA0])
    = convertUserWeekdayStringToRRuleConstant (js "wEdNeSdAy").
Proof.
  assert (Hs : isAscii (js "wEdNeSdAy")) by (apply (bool_decide_unpack _); vm_compute; exact I).
  assert (Hpre : Forall (fun c => isWhiteSpace c = true) [0x20; 0x09]) by by repeat constructor.
  assert (Hpost : Forall (fun c => isWhiteSpace c = true) [0xA0]) by by repeat constructor.
  split_and!; [exact Hs | by right; right | exact Hpre | exact Hpost |].
  exact (proj1 (converters_ignore_case_and_padding (js "wEdNeSdAy") _ _ _ Hs
                  (or_intror (or_intror eq_refl)) Hpre Hpost)).
Defined.

(** ** The first word of a weekday token *)

Lemma white_not_word c : isWhiteSpace c = true → isWord c = false.
Proof.
  intros Hc. destruct (isWord c) eqn:Hw; [|done].
  apply word_not_white in Hw. congruence.
Qed.

Lemma takeWhile_app_stop p u z :
  takeWhile p z = [] → takeWhile p (u ++ z) = takeWhile p u.
Proof.
  intros Hz. induction u as [|c u IH]; simpl; [done|].
  destruct (p c); [by rewrite IH | done].
Qed.

Lemma takeWhile_none p z : Forall (fun c => p c = false) z → takeWhile p z = [].
Proof. destruct 1 as [|c z Hc _]; simpl; [done|]. by rewrite Hc. Qed.

Lemma match_word_app_white u z :
  Forall (fun c => isWhiteSpace c = true) z → match_word (u ++ z) = match_word u.
Proof.
  intros Hz.
  assert (Hnw : Forall (fun c => isWord c = false) z).
  { eapply Forall_impl; [exact Hz|]. intros c. apply white_not_word. }
  unfold match_word.
  destruct (dropWhile (fun c => negb (isWord c)) u) as [|a r] eqn:Hu.
  - apply dropWhile_nil in Hu. rewrite dropWhile_app_all by done.
    rewrite dropWhile_all; [done|].
    eapply Forall_impl; [exact Hnw|]. intros c Hc. simpl in Hc. by rewrite Hc.
  - rewrite dropWhile_app_stop by by rewrite Hu. rewrite Hu.
    change ((a :: r) ++ z) with (a :: r ++ z). cbv iota.
    by rewrite <- (takeWhile_app_stop isWord (a :: r) z (takeWhile_none _ _ Hnw)).
Qed.

Lemma takeWhile_dropWhile p s : takeWhile p s ++ dropWhile p s = s.
Proof. induction s as [|c r IH]; simpl; [done|]. destruct (p c); simpl; by rewrite ?IH. Qed.

Lemma trimEnd_decompose y :
  ∃ z, y = trimEnd y ++ z ∧ Forall (fun c => isWhiteSpace c = true) z.
Proof.
  exists (rev (takeWhile isWhiteSpace (rev y))). split.
  - unfold trimEnd. rewrite <- rev_app_distr, takeWhile_dropWhile.
    by rewrite rev_involutive.
  - apply Forall_rev, takeWhile_Forall.
Qed.

Lemma dropWhile_word_trimStart x :
  dropWhile (fun c => negb (isWord c)) (trimStart x)
  = dropWhile (fun c => negb (isWord c)) x.
Proof.
  unfold trimStart. induction x as [|c r IH]; simpl; [done|].
  destruct (isWhiteSpace c) eqn:Hc; [|done].
  by rewrite (white_not_word c Hc).
Qed.

(** Trimming does not change the first word. *)
Lemma match_word_trim x : match_word (trim x) = match_word x.
Proof.
  unfold trim. destruct (trimEnd_decompose (trimStart x)) as (z & Hy & Hz).
  transitivity (match_word (trimStart x)).
  - rewrite Hy at 2. by rewrite match_word_app_white.
  - unfold match_word. by rewrite dropWhile_word_trimStart.
Qed.

Lemma lowerUnit_ascii_nonword c :
  c < 0x80 → isWord c = false → lowerUnit c = [c].
Proof.
  intros Hc Hw. unit_cases; try reflexivity; exfalso; ranges; lia.
Qed.

Lemma lowerUnit_letter c :
  isWord c = true → isDigit c = false →
  ∃ c', lowerUnit c = [c'] ∧ isWord c' = true ∧ isDigit c' = false.
Proof.
  intros Hw%isWord_range Hd. unfold lowerUnit.
  repeat match goal with
         | |- context [if ?b then _ else _] => destruct b eqn:?
         end; try (exfalso; ranges; lia); eexists; (split; [reflexivity|]); split; range_test.
Qed.

Lemma word_ascii c : isWord c = true → c < 0x80.
Proof. intros Hw%isWord_range. lia. Qed.

(** X14: convertUserByWeekdayToRRuleConstant reads the first word only.
    When the token is a run of word characters that does not start with a
    digit, whatever ASCII punctuation or white space stands before it and
    whatever follows it after a non-word character is ignored, and the
    result is that of the plain weekday converter on the token. *)
Theorem byweekday_reads_first_word (pre w post : jsstring) (a : N) (w' : jsstring) :
  Forall (fun c => c < 0x80 ∧ isWord c = false) pre →
  w = a :: w' → isDigit a = false → Forall (fun c => isWord c = true) w →
  (post = [] ∨ ∃ c r, post = c :: r ∧ c < 0x80 ∧ isWord c = false) →
  convertUserByWeekdayToRRuleConstant (pre ++ w ++ post)
  = convertUserWeekdayStringToRRuleConstant w.
Proof.
  intros Hpre -> Ha Hw Hpost.
  assert (Hlpre : toLowerCase pre = pre).
  { clear Hpost. induction Hpre as [|c r [Hc Hnw] Hr IH]; [done|].
    by rewrite toLowerCase_cons, lowerUnit_ascii_nonword, IH. }
  pose proof Hw as Hw0. apply Forall_cons in Hw0 as [Haw Hw'].
  destruct (lowerUnit_letter a Haw Ha) as (a' & Hla & Haw' & Had').
  destruct (toLowerCase_word w' Hw') as [Hlw' _].
  assert (Hlw : toLowerCase (a :: w') = a' :: toLowerCase w')
    by by rewrite toLowerCase_cons, Hla.
  assert (Hstop : takeWhile isWord (toLowerCase post) = []).
  { destruct Hpost as [-> | (c & r & -> & Hc & Hnw)]; [done|].
    rewrite toLowerCase_cons, lowerUnit_ascii_nonword by done. simpl. by rewrite Hnw. }
  set (x := toLowerCase (pre ++ (a :: w') ++ post)).
  assert (Hword : match_word x = Some [a' :: toLowerCase w']).
  { unfold x. rewrite !toLowerCase_app, Hlpre, Hlw. unfold match_word.
    rewrite dropWhile_app_all.
    - cbn [app dropWhile]. rewrite Haw'. cbn [negb]. cbv iota. cbn [takeWhile].
      rewrite Haw'. do 3 f_equal.
      rewrite takeWhile_app_stop by done. by apply takeWhile_all.
    - eapply Forall_impl; [exact Hpre|]. intros c [_ Hc]. simpl. by rewrite Hc. }
  assert (Hprefix : match_prefix (trim x) = None).
  { destruct (match_prefix (trim x)) as [m|] eqn:Hm; [exfalso|done].
    destruct (match_prefix_Some _ m Hm) as (sign & d & r & Ht & Hd & Hsign & _).
    pose proof (match_word_trim x) as Htrim. rewrite Ht in Htrim.
    rewrite match_word_after_sign in Htrim by done. rewrite Hword in Htrim.
    injection Htrim as -> _. congruence. }
  unfold convertUserByWeekdayToRRuleConstant. fold x.
  rewrite match_word_trim, Hword. unfold test_prefix. rewrite Hprefix. simpl.
  unfold convertUserWeekdayStringToRRuleConstant.
  assert (Hasc : isAscii (a :: w')).
  { eapply Forall_impl; [exact Hw|]. intros c. apply word_ascii. }
  destruct (toLowerCase_ascii _ Hasc) as (_ & Hll & _).
  by rewrite <- Hlw, Hll.
Qed.

Lemma byweekday_reads_first_word_witness :
  Forall (fun c => c < 0x80 ∧ isWord c = false) (js " (")
  ∧ js "Friday" = 0x46 :: js "riday"
  ∧ isDigit 0x46 = false
  ∧ Forall (fun c => isWord c = true) (js "Friday")
  ∧ (js ") the 13th" = [] ∨ ∃ c r, js ") the 13th" = c :: r ∧ c < 0x80 ∧ isWord c = false)
  ∧ convertUserByWeekdayToRRuleConstant (js " (" ++ js "Friday" ++ js ") the 13th")
    = convertUserWeekdayStringToRRuleConstant (js "Friday").
Proof.
  assert (H1 : Forall (fun c => c < 0x80 ∧ isWord c = false) (js " ("))
    by (vm_compute; by repeat constructor).
  assert (H2 : js "Friday" = 0x46 :: js "riday") by reflexivity.
  assert (H3 : isDigit 0x46 = false) by reflexivity.
  assert (H4 : Forall (fun c => isWord c = true) (js "Friday"))
    by (vm_compute; by repeat constructor).
  assert (H5 : js ") the 13th" = [] ∨ ∃ c r, js ") the 13th" = c :: r ∧ c < 0x80 ∧ isWord c = false).
  { right. exists 0x29, (js " the 13th"). by split_and!. }
  split_and!; [exact H1 | exact H2 | exact H3 | exact H4 | exact H5 |].
  exact (byweekday_reads_first_word _ _ _ _ _ H1 H2 H3 H4 H5).
Defined.

(** ** enum.helpers.ts *)

(** X15: for an object made of number-valued properties and string-valued
    properties under other keys (the shape of a TypeScript numeric enum with
    its reverse mappings), getEnumValues returns the keys of the
    number-valued properties, each exactly once, and no other key. *)
Theorem getEnumValues_numeric_enum (names reverse : object) :
  map_Forall (fun _ v => typeof v = js "number") names →
  map_Forall (fun _ v => typeof v = js "string") reverse →
  names ##ₘ reverse →
  getEnumValues (names ∪ reverse) ≡ₚ (map_to_list names).*1.
Proof.
  intros Hnames Hrev Hdisj. apply NoDup_Permutation.
  - unfold getEnumValues. apply NoDup_ListNoDup, List.NoDup_filter, NoDup_ListNoDup.
    apply NoDup_fst_map_to_list.
  - apply NoDup_fst_map_to_list.
  - intros k. unfold getEnumValues.
    rewrite list_elem_of_In, List.filter_In, <- list_elem_of_In, bool_decide_eq_true.
    rewrite !list_elem_of_fmap. split.
    + intros [((k' & v) & -> & Hin) Hnum]. simpl in *.
      apply elem_of_map_to_list in Hin. rewrite Hin in Hnum. simpl in Hnum.
      apply (lookup_union_Some _ _ _ _ Hdisj) in Hin as [Hin | Hin].
      * exists (k', v). split; [done|]. by apply elem_of_map_to_list.
      * apply Hrev in Hin. simpl in Hin. rewrite Hin in Hnum. discriminate Hnum.
    + intros ((k' & v) & -> & Hin). simpl. apply elem_of_map_to_list in Hin.
      assert (Hu : (names ∪ reverse) !! k' = Some v) by by apply lookup_union_Some_l.
      split.
      * exists (k', v). split; [done|]. by apply elem_of_map_to_list.
      * rewrite Hu. simpl. by apply (Hnames k' v).
Qed.

Lemma getEnumValues_numeric_enum_witness :
  let names : object := {[ js "MONDAY" := VNumber 1 ]} in
  let reverse : object := {[ js "1" := VString (js "MONDAY") ]} in
  map_Forall (fun _ v => typeof v = js "number") names
  ∧ map_Forall (fun _ v => typeof v = js "string") reverse
  ∧ names ##ₘ reverse
  ∧ getEnumValues (names ∪ reverse) ≡ₚ (map_to_list names).*1.
Proof.
  intros names reverse.
  assert (H1 : map_Forall (fun _ v => typeof v = js "number") names)
    by by apply map_Forall_singleton.
  assert (H2 : map_Forall (fun _ v => typeof v = js "string") reverse)
    by by apply map_Forall_singleton.
  assert (H3 : names ##ₘ reverse).
  { apply map_disjoint_singleton_l. by vm_compute. }
  split_and!; [exact H1 | exact H2 | exact H3 |].
  exact (getEnumValues_numeric_enum names reverse H1 H2 H3).
Defined.

(** ** capitalize *)

(** X16: on ASCII strings capitalize is idempotent and keeps the length. *)
Theorem capitalize_idempotent (s : jsstring) :
  isAscii s →
  capitalize (capitalize s) = capitalize s ∧ length (capitalize s) = length s.
Proof.
  intros Hs. destruct (capitalize_ascii s Hs) as [_ Hlow]. split.
  - unfold capitalize at 1. rewrite Hlow. reflexivity.
  - assert (Hlen : length (toLowerCase s) = length s).
    { clear Hlow. induction Hs as [|c r Hc Hr IH]; [done|].
      destruct (lowerUnit_ascii c Hc) as (c' & Hl & _).
      rewrite toLowerCase_cons, Hl. simpl. by rewrite IH. }
    destruct (toLowerCase_ascii s Hs) as (Hls & _). rewrite <- Hlen.
    unfold capitalize. destruct (toLowerCase s) as [|c r]; [done|].
    destruct (isWord c); [|done].
    apply Forall_cons in Hls as [Hc _].
    destruct (upperUnit_ascii c Hc) as (c' & Hu & _).
    by rewrite toUpperCase_cons, Hu.
Qed.

Lemma capitalize_idempotent_witness :
  isAscii (js "mONTHLY")
  ∧ capitalize (capitalize (js "mONTHLY")) = capitalize (js "mONTHLY")
  ∧ length (capitalize (js "mONTHLY")) = length (js "mONTHLY").
Proof.
  assert (Hs : isAscii (js "mONTHLY")) by (apply (bool_decide_unpack _); vm_compute; exact I).
  split; [exact Hs | exact (capitalize_idempotent _ Hs)].
Defined.

(** ** More on the formulas *)

Section Consistency.

Context `{Engine} (now later : Z).

(** X17: All and First each build the rule anew, All when the clock reads
    [now] and First when it reads [later].  Whenever the engine reads the
    rule string to the same rule at both readings, First agrees with All:
    for every limit above zero, First returns the first entry of what All
    returns, and the blank string when All returns the empty list. *)
Theorem First_is_head_of_All (rrule : jsstring) (limit : Q) (u : option json) (rule : RRule) :
  unescapeControlCodes rrule = Return u →
  rrulestr now u = inr rule →
  rrulestr later u = inr rule →
  (0 < limit)%Q →
  ∃ l, All now rrule (Some limit) = Return l
       ∧ First later rrule = Return (default BLANK (head l)).
Proof.
  intros Hu Hrule Hrule' Hlimit.
  assert (Hparse : parseRule now u = Return rule) by (unfold parseRule; by rewrite Hrule).
  assert (Hparse' : parseRule later u = Return rule) by (unfold parseRule; by rewrite Hrule').
  assert (Hk : ∃ k, Nat.min (Z.to_nat (Qceiling limit)) 1000 = S k).
  { assert (Hc : (0 < Qceiling limit)%Z).
    { assert (Hq : (inject_Z 0 < inject_Z (Qceiling limit))%Q)
        by (eapply Qlt_le_trans; [exact Hlimit | apply Qle_ceiling]).
      by rewrite <- Zlt_Qlt in Hq. }
    exists (Nat.pred (Nat.min (Z.to_nat (Qceiling limit)) 1000)). lia. }
  destruct Hk as [k Hk].
  unfold All, First. rewrite Hu. simpl. rewrite Hparse, Hparse'. simpl.
  eexists. split; [reflexivity|].
  unfold all. rewrite collect_limit, Hk.
  by destruct (occurrences rule) as [|d ds].
Qed.


End Consistency.

Lemma First_is_head_of_All_witness :
  let E := DailyEngine.dailyEngine in
  let rrule := js "RRULE:FREQ=DAILY;COUNT=5" in
  let later := (DailyEngine.NOW + 500)%Z in
  unescapeControlCodes rrule = Return (Some (JString rrule))
  ∧ @rrulestr E DailyEngine.NOW (Some (JString rrule))
    = inr (DailyEngine.dailyRule DailyEngine.NOW 5)
  ∧ @rrulestr E later (Some (JString rrule)) = inr (DailyEngine.dailyRule DailyEngine.NOW 5)
  ∧ (0 < 2)%Q
  ∧ ∃ l, @All E DailyEngine.NOW rrule (Some (2 : Q)) = Return l
         ∧ @First E later rrule = Return (default BLANK (head l)).
Proof.
  intros E rrule later.
  assert (Hu : unescapeControlCodes rrule = Return (Some (JString rrule)))
    by (vm_compute; reflexivity).
  assert (Hr : @rrulestr E DailyEngine.NOW (Some (JString rrule))
               = inr (DailyEngine.dailyRule DailyEngine.NOW 5))
    by (vm_compute; reflexivity).
  assert (Hr' : @rrulestr E later (Some (JString rrule))
                = inr (DailyEngine.dailyRule DailyEngine.NOW 5))
    by (vm_compute; reflexivity).
  assert (Hl : (0 < 2)%Q) by reflexivity.
  split_and!; [exact Hu | exact Hr | exact Hr' | exact Hl |].
  exact (@First_is_head_of_All E DailyEngine.NOW later rrule 2 _ _ Hu Hr Hr' Hl).
Defined.


(** ** Quotes in the rule string *)

Lemma parseValue_two_members fuel a b :
  Forall plainUnit a → Forall plainUnit b →
  parseValue (S (S (S fuel))) (TEMPLATE_HEAD ++ (a ++ SECOND_MEMBER ++ b) ++ [QUOTE; 0x7D])
  = Some (JObject [(js "s", JString a); (js "s", JString b)], []).
Proof.
  intros Ha Hb. rewrite <- !app_assoc. unfold TEMPLATE_HEAD, SECOND_MEMBER. simpl.
  rewrite (parseStringBody_plain a) by done. simpl.
  rewrite (parseStringBody_plain b) by done. reflexivity.
Qed.

(** X19: unescapeControlCodes does not protect the quotes of its template:
    when the rule string holds a quote followed by a second member with the
    key s, the text before the quote is dropped and the value of the second
    member is returned. *)
Theorem unescapeControlCodes_second_member (a b : jsstring) :
  Forall plainUnit a → Forall plainUnit b →
  unescapeControlCodes (a ++ SECOND_MEMBER ++ b) = Return (Some (JString b)).
Proof.
  intros Ha Hb. rewrite unescape_template. unfold JSON_parse.
  change (length (TEMPLATE_HEAD ++ (a ++ SECOND_MEMBER ++ b) ++ [QUOTE; 0x7D]))
    with (S (S (5 + length ((a ++ SECOND_MEMBER ++ b) ++ [QUOTE; 0x7D])))).
  rewrite parseValue_two_members by done. reflexivity.
Qed.

Lemma unescapeControlCodes_second_member_witness :
  Forall plainUnit (js "RRULE:FREQ=DAILY") ∧ Forall plainUnit (js "RRULE:FREQ=YEARLY")
  ∧ unescapeControlCodes (js "RRULE:FREQ=DAILY" ++ SECOND_MEMBER ++ js "RRULE:FREQ=YEARLY")
    = Return (Some (JString (js "RRULE:FREQ=YEARLY"))).
Proof.
  assert (Ha : Forall plainUnit (js "RRULE:FREQ=DAILY"))
    by (apply (bool_decide_unpack _); vm_compute; exact I).
  assert (Hb : Forall plainUnit (js "RRULE:FREQ=YEARLY"))
    by (apply (bool_decide_unpack _); vm_compute; exact I).
  split; [exact Ha|]. split; [exact Hb|].
  exact (unescapeControlCodes_second_member _ _ Ha Hb).
Defined.


Section Listing.

Context `{TextEngine}.

(** X20: the names that the Frequencies formula lists are usable as the
    frequency parameter: when the engine's frequency names are ASCII, each
    listed (capitalized) name is converted by
    convertFrequencyStringToRRuleConstant exactly as the engine's own name at
    the same position, and the list has as many entries as the engine has
    names. *)
Theorem Frequencies_convert_as_engine_names :
  Forall isAscii FREQUENCIES →
  Forall2 (fun shown name => convertFrequencyStringToRRuleConstant shown
                             = convertFrequencyStringToRRuleConstant name)
          Frequencies FREQUENCIES.
Proof.
  unfold Frequencies. induction 1 as [|name names Hname _ IH]; [constructor|].
  rewrite fmap_cons. constructor; [|exact IH].
  destruct (capitalize_ascii name Hname) as [Hc Hlow].
  by destruct (converters_lower (capitalize name) name Hc Hname Hlow) as (_ & _ & Hf & _).
Qed.

End Listing.

Lemma Frequencies_convert_as_engine_names_witness :
  Forall isAscii (@FREQUENCIES _ DailyEngine.dailyTextEngine)
  ∧ Forall2 (fun shown name => convertFrequencyStringToRRuleConstant shown
                               = convertFrequencyStringToRRuleConstant name)
            (@Frequencies _ DailyEngine.dailyTextEngine)
            (@FREQUENCIES _ DailyEngine.dailyTextEngine).
Proof.
  assert (Hf : Forall isAscii (@FREQUENCIES _ DailyEngine.dailyTextEngine))
    by (apply (bool_decide_unpack _); vm_compute; exact I).
  split; [exact Hf|].
  exact (@Frequencies_convert_as_engine_names _ DailyEngine.dailyTextEngine Hf).
Defined.
